(** * Nobitex order-book schema: a shallow embedding and its properties

  The source, [nobitex/schema/orderbook.py], declares two pydantic models
  and one type adapter:

    - [OrderBookEntry] with two [Decimal] fields and a [mode="before"]
      model validator [parse_list];
    - [OrderBook] with two [List[OrderBookEntry]] fields;
    - [all_order_books_T = TypeAdapter(dict[str, OrderBook])].

  The schema is declarative, so what it does is what the validators it
  names do.  The development is laid out accordingly:

    - [PyStr]     the few [str] methods the decimal constructor calls;
    - [PyDecimal] [decimal.Decimal]: construction from [str] and [int]
                  within the limits of the implementation, [__str__],
                  [is_finite];
    - [Binary64]  the floats the JSON reader makes of number tokens;
    - [Pydantic]  raw input values, line errors and the validators the
                  schema is built from (decimal, list, dict, model fields);
    - [Json]      reading and writing JSON text;
    - the schema itself, under the names it has in the source. *)

From Stdlib Require Import ZArith NArith List String Ascii Bool Lia.
From Stdlib Require Import QArith Qround.
From Stdlib Require Import DecimalString DecimalN DecimalPos DecimalFacts.
Import ListNotations.

#[local] Set Warnings "-register-all".
#[local] Open Scope string_scope.
#[local] Open Scope Z_scope.

(* ================================================================== *)
(** ** Python [str] *)
(* ================================================================== *)

(** Text is a [string] of 8-bit characters; the development covers ASCII
  text, which is what an exchange sends for symbols and numbers. *)
Module PyStr.

(** [s[:n]] *)
Fixpoint take (n : nat) (s : string) : string :=
  match n, s with
  | S n', String c r => String c (take n' r)
  | _, _ => EmptyString
  end.

(** [s[n:]] *)
Fixpoint drop (n : nat) (s : string) : string :=
  match n, s with
  | S n', String _ r => drop n' r
  | _, _ => s
  end.

(** [c * n] *)
Fixpoint repeat (c : ascii) (n : nat) : string :=
  match n with
  | O => EmptyString
  | S n' => String c (repeat c n')
  end.

(** [str.isspace] on one ASCII character: TAB, LF, VT, FF, CR, the four
    separators FS, GS, RS, US and the space. *)
Definition is_space (c : ascii) : bool :=
  let n := nat_of_ascii c in
  ((9 <=? n)%nat && (n <=? 13)%nat) || ((28 <=? n)%nat && (n <=? 32)%nat).

Fixpoint lstrip (s : string) : string :=
  match s with
  | String c r => if is_space c then lstrip r else s
  | EmptyString => EmptyString
  end.

Fixpoint rstrip (s : string) : string :=
  match s with
  | EmptyString => EmptyString
  | String c r =>
      match rstrip r with
      | EmptyString => if is_space c then EmptyString else String c EmptyString
      | r' => String c r'
      end
  end.

(** [s.strip()] *)
Definition strip (s : string) : string := rstrip (lstrip s).

(** [s.replace(c, empty)] for a one-character [c] *)
Fixpoint remove (c : ascii) (s : string) : string :=
  match s with
  | EmptyString => EmptyString
  | String a r => if Ascii.eqb a c then remove c r else String a (remove c r)
  end.

(** [c.lower()] on one ASCII character *)
Definition lower_char (c : ascii) : ascii :=
  let n := nat_of_ascii c in
  if ((65 <=? n)%nat && (n <=? 90)%nat)%bool then ascii_of_nat (n + 32) else c.

Fixpoint lower (s : string) : string :=
  match s with
  | EmptyString => EmptyString
  | String c r => String (lower_char c) (lower r)
  end.

Definition is_digit (c : ascii) : bool :=
  let n := nat_of_ascii c in ((48 <=? n)%nat && (n <=? 57)%nat).

(** The longest prefix of digits, and what follows it: what the regular
    expression for a run of digits consumes (it is greedy, and no later part of the
    patterns used here can start with a digit it gave back). *)
Fixpoint span_digits (s : string) : string * string :=
  match s with
  | String c r =>
      if is_digit c
      then let (d, t) := span_digits r in (String c d, t)
      else (EmptyString, s)
  | EmptyString => (EmptyString, EmptyString)
  end.

Definition digit_value (c : ascii) : N := (N_of_ascii c - 48)%N.

Fixpoint int_of_digits_acc (acc : N) (s : string) : N :=
  match s with
  | EmptyString => acc
  | String c r => int_of_digits_acc (10 * acc + digit_value c)%N r
  end.

(** [int(s)] for [s] a string of digits (it is not called on the empty
    string: the callers below pass a non-empty string or substitute
    ["0"]). *)
Definition int_of_digits (s : string) : N := int_of_digits_acc 0%N s.

(** [str(n)] for a non-negative [int] *)
Definition str_of_N (n : N) : string :=
  NilEmpty.string_of_uint (N.to_uint n).

(** ["%+d" % z] *)
Definition format_plus_d (z : Z) : string :=
  (if z <? 0 then "-" else "+") ++ str_of_N (Z.abs_N z).

(** [str(z)] for an [int] *)
Definition str_of_Z (z : Z) : string :=
  (if z <? 0 then "-" else EmptyString) ++ str_of_N (Z.abs_N z).

End PyStr.

(* ================================================================== *)
(** ** [decimal.Decimal] *)
(* ================================================================== *)

Module PyDecimal.
Import PyStr.

(** A [Decimal] is a sign, a coefficient and an exponent, or one of the
    special values.  The coefficient [_int] is kept by Python as the digit
    string [str(int(...))], that is a natural number; the payload of a NaN
    likewise, with the empty payload as [0]. *)
Inductive Decimal : Type :=
| Finite (sign : bool) (coefficient : N) (exponent : Z)
| Infinity (sign : bool)
| NaN (sign : bool) (signaling : bool) (payload : N).

Definition is_finite (d : Decimal) : bool :=
  match d with Finite _ _ _ => true | _ => false end.

(** The limits of the implementation (the C module on a 64-bit build):
    [MAX_PREC], [MAX_EMAX] and [MIN_ETINY] of the [decimal] module. *)
Definition MAX_PREC : Z := 999999999999999999.
Definition MAX_EMAX : Z := 999999999999999999.
Definition MIN_ETINY : Z := -1999999999999999997.

(** What the implementation holds exactly: a finite decimal of at most
    [MAX_PREC] digits whose adjusted exponent (the exponent of its first
    digit) is at most [MAX_EMAX] and whose exponent is at least
    [MIN_ETINY].  Zero counts as one digit. *)
Definition in_range (d : Decimal) : bool :=
  match d with
  | Finite _ coefficient exponent =>
      let digits := Z.of_nat (String.length (str_of_N coefficient)) in
      (digits <=? MAX_PREC)
      && (exponent + digits - 1 <=? MAX_EMAX)
      && (MIN_ETINY <=? exponent)
  | _ => true
  end.

(** The exact constructors convert under the widest context and raise
    [InvalidOperation], here [None], when that would round, overflow or
    clamp. *)
Definition exact (d : Decimal) : option Decimal :=
  if in_range d then Some d else None.

(** [Decimal(n)] for an [int] *)
Definition of_int (z : Z) : option Decimal :=
  exact (Finite (z <? 0) (Z.abs_N z) 0).

(** An optional sign at the head of [s]: whether it is a minus, and what
    follows it. *)
Definition split_sign (s : string) : bool * string :=
  match s with
  | String "-" r => (true, r)
  | String "+" r => (false, r)
  | _ => (false, s)
  end.

(** What follows a decimal point at the head of [s], if there is one. *)
Definition after_point (s : string) : option string :=
  match s with
  | String "." r => Some r
  | _ => None
  end.

(** The exponent part, [E], an optional sign and at least one digit,
    followed by the end of the string; the empty rest stands for
    exponent [0]. *)
Definition parse_exponent (s : string) : option Z :=
  match s with
  | EmptyString => Some 0
  | String c r =>
      if Ascii.eqb (lower_char c) "e" then
        let '(neg, r1) := split_sign r in
        match span_digits r1 with
        | (EmptyString, _) => None
        | (ds, EmptyString) =>
            let n := Z.of_N (int_of_digits ds) in
            Some (if neg then - n else n)
        | (_, String _ _) => None
        end
      else None
  end.

(** The finite branch of the constructor's pattern: a look-ahead for a
    digit, or a point and a digit; the group [int] of digits, possibly
    empty; optionally a point and the group [frac] of digits, possibly
    empty; optionally the exponent; the end of the string.  Returns the
    groups [int], [frac] (empty when absent) and [exp]. *)
Definition parse_number (s : string) : option (string * string * Z) :=
  let (intpart, r1) := span_digits s in
  let '(fracpart, r2) :=
    match after_point r1 with
    | Some r => span_digits r
    | None => (EmptyString, r1)
    end in
  match intpart, fracpart with
  | EmptyString, EmptyString => None
  | _, _ =>
      match parse_exponent r2 with
      | Some e => Some (intpart, fracpart, e)
      | None => None
      end
  end.

(** The special branches: [Inf] or [Infinity], and [NaN] or [sNaN] followed
    by the digits of a payload, matched without regard to case. *)
Definition parse_special (sign : bool) (s : string) : option Decimal :=
  let l := lower s in
  if String.eqb l "inf" || String.eqb l "infinity" then Some (Infinity sign)
  else
    let '(signal, r) :=
      match l with
      | String "s" r => (true, r)
      | _ => (false, l)
      end in
    match r with
    | String "n" (String "a" (String "n" diag)) =>
        match span_digits diag with
        | (ds, EmptyString) => Some (NaN sign signal (int_of_digits ds))
        | _ => None
        end
    | _ => None
    end.

(** [Decimal(value)] for a [str]: [None] is [InvalidOperation].  The
    constructor also takes decimal digits and white space beyond ASCII;
    these are not modelled, and text that holds them is refused here. *)
Definition of_str (value : string) : option Decimal :=
  let s := remove "_" (strip value) in
  let '(sign, body) := split_sign s in
  match parse_number body with
  | Some (intpart, fracpart, e) =>
      exact (Finite sign
               (int_of_digits (intpart ++ fracpart))
               (e - Z.of_nat (String.length fracpart)))
  | None => parse_special sign body
  end.

(** [Decimal.__str__]: the number in scientific notation, as the General
    Decimal Arithmetic specification defines it. *)
Definition to_str (d : Decimal) : string :=
  match d with
  | Finite sign coefficient exponent =>
      let _int := str_of_N coefficient in
      let len := Z.of_nat (String.length _int) in
      let leftdigits := exponent + len in
      let dotplace :=
        if (exponent <=? 0) && (-6 <? leftdigits) then leftdigits else 1 in
      let '(intpart, fracpart) :=
        if dotplace <=? 0 then
          ("0", "." ++ repeat "0" (Z.to_nat (- dotplace)) ++ _int)
        else if len <=? dotplace then
          (_int ++ repeat "0" (Z.to_nat (dotplace - len)), EmptyString)
        else
          (take (Z.to_nat dotplace) _int, "." ++ drop (Z.to_nat dotplace) _int) in
      let exp :=
        if leftdigits =? dotplace then EmptyString
        else "E" ++ format_plus_d (leftdigits - dotplace) in
      (if sign then "-" else EmptyString) ++ intpart ++ fracpart ++ exp
  | Infinity sign => (if sign then "-" else EmptyString) ++ "Infinity"
  | NaN sign signaling payload =>
      (if sign then "-" else EmptyString) ++ (if signaling then "sNaN" else "NaN")
      ++ (if (payload =? 0)%N then EmptyString else str_of_N payload)
  end.

End PyDecimal.

(* ================================================================== *)
(** ** binary64 floating point *)
(* ================================================================== *)

(** The JSON reader turns a number token with a fraction or an exponent
    into a binary64 [float], and the decimal validator turns that [float]
    into text again.  Both steps are modelled on exact rationals. *)
Module Binary64.
Import PyStr.

(** A value: a signed zero, a signed infinity, or [m * 2^e] with
    [0 < m < 2^53] and [-1074 <= e <= 971]. *)
Inductive f64 : Type :=
| Zero (neg : bool)
| Inf (neg : bool)
| Fin (neg : bool) (m : Z) (e : Z).

Definition pow2 (e : Z) : Q := Qpower (inject_Z 2) e.
Definition pow10 (k : Z) : Q := Qpower (inject_Z 10) k.

Definition Qlt_bool (a b : Q) : bool := negb (Qle_bool b a).

(** The integer part of the binary logarithm of a positive rational. *)
Definition ilog2 (q : Q) : Z :=
  let k := Z.log2 (Qnum q) - Z.log2 (Zpos (Qden q)) in
  if Qle_bool (pow2 k) q then k else k - 1.

(** The nearest integer, a tie going to the even one. *)
Definition round_half_even (q : Q) : Z :=
  let f := Qfloor q in
  match Qcompare (q - inject_Z f)%Q (1 # 2)%Q with
  | Lt => f
  | Gt => f + 1
  | Eq => if Z.even f then f else f + 1
  end.

(** The binary64 value nearest to a non-negative rational: 53 bits of
    mantissa, fewer below the normal range, infinity above the largest
    finite value. *)
Definition of_Q (neg : bool) (q : Q) : f64 :=
  if Qle_bool q (inject_Z 0) then Zero neg
  else
    let e := Z.max (ilog2 q - 52) (-1074) in
    let m := round_half_even (q / pow2 e)%Q in
    let '(m, e) := if m =? 2 ^ 53 then (2 ^ 52, e + 1) else (m, e) in
    if m =? 0 then Zero neg
    else if 971 <? e then Inf neg
    else Fin neg m e.

(** The number [k] of digits before the decimal point of a positive
    rational: [10^(k-1) <= q < 10^k].  The estimate is off by one at
    most; the loop settles it. *)
Fixpoint adjust_point (fuel : nat) (q : Q) (k : Z) : Z :=
  match fuel with
  | O => k
  | S f =>
      if Qle_bool (pow10 k) q then adjust_point f q (k + 1)
      else if Qlt_bool q (pow10 (k - 1)) then adjust_point f q (k - 1)
      else k
  end.

Definition decimal_point (q : Q) : Z :=
  adjust_point 4 q (ilog2 q * 30103 / 100000 + 1).

Definition in_interval (inclusive : bool) (lo hi x : Q) : bool :=
  if inclusive then Qle_bool lo x && Qle_bool x hi
  else Qlt_bool lo x && Qlt_bool x hi.

(** The shortest decimal that reads back as the same value: digits are
    added until the decimal just below or the one just above lies in the
    interval of the rationals that round to the value; of two that do,
    the closer one is taken, the upper one on a tie.  The result
    [(c, x)] stands for [c * 10^x]. *)
Fixpoint shortest_from (fuel : nat) (n : Z) (v lo hi : Q) (inclusive : bool)
    (k : Z) : Z * Z :=
  let x := k - n in
  let scaled := (v / pow10 x)%Q in
  let c := Qfloor scaled in
  let down := in_interval inclusive lo hi (inject_Z c * pow10 x)%Q in
  let up := in_interval inclusive lo hi (inject_Z (c + 1) * pow10 x)%Q in
  let closer_up := Qle_bool (1 # 2)%Q (scaled - inject_Z c)%Q in
  if down && up then (if closer_up then c + 1 else c, x)
  else if down then (c, x)
  else if up then (c + 1, x)
  else
    match fuel with
    | O => (c, x)
    | S f => shortest_from f (n + 1) v lo hi inclusive k
    end.

Fixpoint strip_zeros (fuel : nat) (c x : Z) : Z * Z :=
  match fuel with
  | O => (c, x)
  | S f =>
      if (c mod 10 =? 0) && negb (c =? 0)
      then strip_zeros f (c / 10) (x + 1)
      else (c, x)
  end.

(** The interval of [m * 2^e] reaches half way to its neighbours; the
    lower neighbour is twice as close at a power of two; the ends belong
    to it when [m] is even. *)
Definition shortest (m e : Z) : Z * Z :=
  let v := (inject_Z m * pow2 e)%Q in
  let hi := ((inject_Z m + (1 # 2)) * pow2 e)%Q in
  let lo :=
    if (m =? 2 ^ 52) && (-1074 <? e)
    then ((inject_Z m - (1 # 4)) * pow2 e)%Q
    else ((inject_Z m - (1 # 2)) * pow2 e)%Q in
  let '(c, x) := shortest_from 17 1 v lo hi (Z.even m) (decimal_point v) in
  strip_zeros 20 c x.

(** [c * 10^x] written out in full, without exponent and without a
    fraction when there is none to write. *)
Definition digits_text (c x : Z) : string :=
  let ds := str_of_N (Z.to_N c) in
  let pos := Z.of_nat (String.length ds) + x in
  if pos <=? 0 then "0." ++ repeat "0" (Z.to_nat (- pos)) ++ ds
  else if 0 <=? x then ds ++ repeat "0" (Z.to_nat x)
  else take (Z.to_nat pos) ds ++ "." ++ drop (Z.to_nat pos) ds.

(** The text the JSON path hands to the [Decimal] constructor for a
    [float]: its shortest digits, written out in full ([1.0] is [1],
    [1e-7] is [0.0000001]). *)
Definition to_text (f : f64) : string :=
  match f with
  | Zero neg => (if neg then "-" else EmptyString) ++ "0"
  | Inf neg => (if neg then "-" else EmptyString) ++ "inf"
  | Fin neg m e =>
      let (c, x) := shortest m e in
      (if neg then "-" else EmptyString) ++ digits_text c x
  end.

End Binary64.

(* ================================================================== *)
(** ** pydantic: inputs, errors and the validators of the schema *)
(* ================================================================== *)

Module Pydantic.
Import PyStr PyDecimal.

(** A raw input: what [json.loads] returns, or what a caller builds by
    hand.  A [float] is carried by the text the decimal validator turns it
    into (the shortest text that reads back as the same binary64 value:
    [str()] for a Python [float], [Binary64.to_text] for one read from
    JSON), since that text is all the validator looks at.  A [dict] keeps its items
    in insertion order; its keys are strings, as in decoded JSON. *)
Inductive Raw : Type :=
| RNone
| RBool (b : bool)
| RInt (z : Z)
| RFloat (repr : string)
| RStr (s : string)
| RDecimal (d : Decimal)
| RList (items : list Raw)
| RTuple (items : list Raw)
| RDict (items : list (string * Raw)).

(** [d.get(key)] *)
Fixpoint dict_get (key : string) (items : list (string * Raw)) : option Raw :=
  match items with
  | [] => None
  | (k, v) :: rest => if String.eqb k key then Some v else dict_get key rest
  end.

(** [d[key] = value]: an existing key keeps its place, a new one goes last. *)
Fixpoint dict_set (key : string) (value : Raw) (items : list (string * Raw))
  : list (string * Raw) :=
  match items with
  | [] => [(key, value)]
  | (k, v) :: rest =>
      if String.eqb k key then (k, value) :: rest
      else (k, v) :: dict_set key value rest
  end.

(** One step of an error's location: a field or key, or a list index. *)
Inductive LocItem : Type :=
| LKey (name : string)
| LIndex (index : nat).

Inductive ErrorType : Type :=
| Missing            (* "Field required" *)
| ModelType          (* "Input should be a valid dictionary or instance of ..." *)
| DictType           (* "Input should be a valid dictionary" *)
| ListType           (* "Input should be a valid list" *)
| DecimalType        (* "Decimal input should be an integer, float, string or Decimal object" *)
| DecimalParsing     (* "Input should be a valid decimal" *)
| FiniteNumber       (* "Input should be a finite number" *)
| JsonInvalid.       (* "Invalid JSON" *)

(** One line of a [ValidationError]. *)
Record LineError : Type := mkLineError {
  error_type : ErrorType;
  loc : list LocItem;
  input_value : Raw
}.

(** A validator returns a value, or raises [ValidationError] with its
    line errors. *)
Inductive ValResult (T : Type) : Type :=
| Ok (value : T)
| ValidationError (errors : list LineError).
Arguments Ok {T} value.
Arguments ValidationError {T} errors.

Definition error (ty : ErrorType) (input : Raw) : LineError :=
  mkLineError ty [] input.

Definition with_outer_location (l : LocItem) (e : LineError) : LineError :=
  mkLineError (error_type e) (l :: loc e) (input_value e).

Definition errors_of {T} (r : ValResult T) : list LineError :=
  match r with
  | Ok _ => []
  | ValidationError errs => errs
  end.

(** *** Decimal *)

(** The outcome of a constructor call, with [InvalidOperation] turned into
    a line error. *)
Definition constructed (made : option Decimal) (input : Raw)
  : ValResult Decimal :=
  match made with
  | Some d => Ok d
  | None => ValidationError [error DecimalParsing input]
  end.

(** [Decimal(arg)] for a [str] *)
Definition create_decimal (arg : string) (input : Raw) : ValResult Decimal :=
  constructed (of_str arg) input.

(** The input's conversion to a [Decimal], lax mode: a [Decimal] as it is,
    a [str] or an [int] (not a [bool]) through the constructor, a [float]
    through the constructor applied to its text.  Every [Decimal] object
    lies within the limits of the implementation; data outside them is no
    [Decimal] object and is answered like any other type. *)
Definition validate_decimal (input : Raw) : ValResult Decimal :=
  match input with
  | RDecimal d =>
      if in_range d then Ok d
      else ValidationError [error DecimalType input]
  | RStr s => create_decimal s input
  | RInt z => constructed (of_int z) input
  | RFloat repr => create_decimal repr input
  | _ => ValidationError [error DecimalType input]
  end.

(** The decimal validator with the schema's defaults: no digit limits, no
    bounds, and [allow_inf_nan] off. *)
Definition decimal_validator (input : Raw) : ValResult Decimal :=
  match validate_decimal input with
  | Ok d =>
      if is_finite d then Ok d
      else ValidationError [error FiniteNumber input]
  | ValidationError errs => ValidationError errs
  end.

(** *** List *)

Section Containers.
Context {T : Type} (item_validator : Raw -> ValResult T).

(** The loop over the items: every item is validated, the values are
    collected in order, and so are the errors, each under its index. *)
Fixpoint validate_items (index : nat) (items : list Raw)
  : list T * list LineError :=
  match items with
  | [] => ([], [])
  | item :: rest =>
      let (output, errors) := validate_items (S index) rest in
      match item_validator item with
      | Ok v => (v :: output, errors)
      | ValidationError line_errors =>
          (output,
           (map (with_outer_location (LIndex index)) line_errors ++ errors)%list)
      end
  end.

(** [List[T]], lax mode: a list or a tuple is taken item by item. *)
Definition list_validator (input : Raw) : ValResult (list T) :=
  match input with
  | RList items | RTuple items =>
      match validate_items 0 items with
      | (output, []) => Ok output
      | (_, errors) => ValidationError errors
      end
  | _ => ValidationError [error ListType input]
  end.

(** The loop over a dict's items: the keys are strings already, every
    value is validated, errors go under the key. *)
Fixpoint validate_dict_items (items : list (string * Raw))
  : list (string * T) * list LineError :=
  match items with
  | [] => ([], [])
  | (key, value) :: rest =>
      let (output, errors) := validate_dict_items rest in
      match item_validator value with
      | Ok v => ((key, v) :: output, errors)
      | ValidationError line_errors =>
          (output,
           (map (with_outer_location (LKey key)) line_errors ++ errors)%list)
      end
  end.

(** [dict[str, T]] *)
Definition dict_validator (input : Raw) : ValResult (list (string * T)) :=
  match input with
  | RDict items =>
      match validate_dict_items items with
      | (output, []) => Ok output
      | (_, errors) => ValidationError errors
      end
  | _ => ValidationError [error DictType input]
  end.

(** One field of a model: looked up by name in the input dict; absent,
    it is [missing]; present, its errors go under the field's name. *)
Definition validate_field (name : string) (items : list (string * Raw))
  : ValResult T :=
  match dict_get name items with
  | Some value =>
      match item_validator value with
      | Ok v => Ok v
      | ValidationError line_errors =>
          ValidationError
            (map (with_outer_location (LKey name)) line_errors)
      end
  | None =>
      ValidationError
        [with_outer_location (LKey name) (error Missing (RDict items))]
  end.
End Containers.

(** The fields validator of a model with two fields and the default
    configuration ([extra="ignore"]): the input must be a dict; each
    field is validated, all errors are collected, keys that name no field
    are not looked at. *)
Definition model_fields_validator {A B M : Type}
    (name1 : string) (v1 : Raw -> ValResult A)
    (name2 : string) (v2 : Raw -> ValResult B)
    (build : A -> B -> M) (input : Raw) : ValResult M :=
  match input with
  | RDict items =>
      match validate_field v1 name1 items, validate_field v2 name2 items with
      | Ok a, Ok b => Ok (build a b)
      | r1, r2 => ValidationError (errors_of r1 ++ errors_of r2)%list
      end
  | _ => ValidationError [error ModelType input]
  end.

End Pydantic.

(* ================================================================== *)
(** ** JSON text *)
(* ================================================================== *)

Module Json.
Import PyStr PyDecimal Pydantic.

Definition quote : ascii := ascii_of_nat 34.
Definition backslash : ascii := ascii_of_nat 92.

(** *** Writing a string *)

Definition hex_digit (n : nat) : ascii :=
  if (n <? 10)%nat then ascii_of_nat (48 + n) else ascii_of_nat (87 + n).

(** A character inside a JSON string: the quote and the backslash are
    escaped, control characters are written by their short escape or as
    [\u00XX], everything else stands for itself. *)
Definition escape_char (c : ascii) : string :=
  let n := nat_of_ascii c in
  if Ascii.eqb c quote then String backslash (String quote EmptyString)
  else if Ascii.eqb c backslash then String backslash (String backslash EmptyString)
  else if (n =? 8)%nat then String backslash "b"
  else if (n =? 9)%nat then String backslash "t"
  else if (n =? 10)%nat then String backslash "n"
  else if (n =? 12)%nat then String backslash "f"
  else if (n =? 13)%nat then String backslash "r"
  else if (n <? 32)%nat then
    String backslash
      (String "u" (String "0" (String "0"
        (String (hex_digit (n / 16)) (String (hex_digit (n mod 16)) EmptyString)))))
  else String c EmptyString.

Fixpoint escape (s : string) : string :=
  match s with
  | EmptyString => EmptyString
  | String c r => escape_char c ++ escape r
  end.

Definition write_string (s : string) : string :=
  String quote (escape s ++ String quote EmptyString).

(** *** Reading *)

Definition is_ws (c : ascii) : bool :=
  let n := nat_of_ascii c in
  (n =? 32)%nat || (n =? 9)%nat || (n =? 10)%nat || (n =? 13)%nat.

Fixpoint skip_ws (s : string) : string :=
  match s with
  | String c r => if is_ws c then skip_ws r else s
  | EmptyString => EmptyString
  end.

Definition unescape (e : ascii) : option ascii :=
  if Ascii.eqb e quote then Some quote
  else if Ascii.eqb e backslash then Some backslash
  else if Ascii.eqb e "/" then Some "/"%char
  else if Ascii.eqb e "b" then Some (ascii_of_nat 8)
  else if Ascii.eqb e "f" then Some (ascii_of_nat 12)
  else if Ascii.eqb e "n" then Some (ascii_of_nat 10)
  else if Ascii.eqb e "r" then Some (ascii_of_nat 13)
  else if Ascii.eqb e "t" then Some (ascii_of_nat 9)
  else None.

Definition hex_value (c : ascii) : option nat :=
  let n := nat_of_ascii c in
  if ((48 <=? n) && (n <=? 57))%nat then Some (n - 48)%nat
  else if ((97 <=? n) && (n <=? 102))%nat then Some (n - 87)%nat
  else if ((65 <=? n) && (n <=? 70))%nat then Some (n - 55)%nat
  else None.

Definition hex4 (a b c d : ascii) : option nat :=
  match hex_value a, hex_value b, hex_value c, hex_value d with
  | Some x, Some y, Some z, Some w =>
      Some (((x * 16 + y) * 16 + z) * 16 + w)%nat
  | _, _, _, _ => None
  end.

Definition push (c : ascii) (r : option (string * string))
  : option (string * string) :=
  match r with
  | Some (text, rest) => Some (String c text, rest)
  | None => None
  end.

(** The body of a string, from just after its opening quote: the text it
    denotes and what follows the closing quote.  A [\u] escape is decoded
    when it names an ASCII character; beyond ASCII the text is outside
    what this development covers and is not decoded. *)
Fixpoint read_string (s : string) : option (string * string) :=
  match s with
  | EmptyString => None
  | String c r =>
      if Ascii.eqb c quote then Some (EmptyString, r)
      else if Ascii.eqb c backslash then
        match r with
        | String "u" (String h1 (String h2 (String h3 (String h4 r')))) =>
            match hex4 h1 h2 h3 h4 with
            | Some n =>
                if (n <? 128)%nat then push (ascii_of_nat n) (read_string r')
                else None
            | None => None
            end
        | String e r' =>
            match unescape e with
            | Some ch => push ch (read_string r')
            | None => None
            end
        | EmptyString => None
        end
      else if (nat_of_ascii c <? 32)%nat then None
      else push c (read_string r)
  end.

(** The fraction of a number token: a point and at least one digit, or
    nothing. *)
Definition read_fraction (s : string) : option (string * string) :=
  match after_point s with
  | Some r =>
      match span_digits r with
      | (EmptyString, _) => None
      | (fs, rest) => Some (fs, rest)
      end
  | None => Some (EmptyString, s)
  end.

(** The exponent of a number token: the letter E in either case, an
    optional sign and at least one digit, or nothing. *)
Definition read_exponent (s : string) : option (option Z * string) :=
  match s with
  | String c r =>
      if Ascii.eqb (lower_char c) "e" then
        let '(neg, r1) := split_sign r in
        match span_digits r1 with
        | (EmptyString, _) => None
        | (es, rest) =>
            let n := Z.of_N (int_of_digits es) in
            Some (Some (if neg then - n else n), rest)
        end
      else Some (None, s)
  | EmptyString => Some (None, s)
  end.

Definition read_literal (word : string) (v : Raw) (s : string)
  : option (Raw * string) :=
  if String.prefix word s then Some (v, drop (String.length word) s) else None.

(** A minus sign at the head of [s]. *)
Definition split_minus (s : string) : bool * string :=
  match s with
  | String "-" r => (true, r)
  | _ => (false, s)
  end.

(** A zero followed by more digits. *)
Definition leading_zero (ds : string) : bool :=
  match ds with
  | String "0" (String _ _) => true
  | _ => false
  end.

(** The rational [digits * 10^e] as a [float], carried by its text. *)
Definition float_token (neg : bool) (digits : string) (e : Z) : Raw :=
  let q := (inject_Z (Z.of_N (int_of_digits digits)) * Binary64.pow10 e)%Q in
  RFloat (Binary64.to_text (Binary64.of_Q neg q)).

(** A number token.  Without fraction and exponent it is an [int],
    whatever its size.  With either it is a binary64 [float]: the value
    nearest to the number written, carried by its text.  The reader also
    takes the tokens [NaN], [Infinity] and [-Infinity]. *)
Definition read_number (s : string) : option (Raw * string) :=
  let '(neg, r) := split_minus s in
  match span_digits r with
  | (EmptyString, _) =>
      if neg then read_literal "Infinity" (RFloat "-inf") r else None
  | (ds, rest) =>
      if leading_zero ds then None
      else
        match read_fraction rest with
        | None => None
        | Some (fs, rest1) =>
            match read_exponent rest1 with
            | None => None
            | Some (None, rest2) =>
                match fs with
                | EmptyString =>
                    let n := Z.of_N (int_of_digits ds) in
                    Some (RInt (if neg then - n else n), rest2)
                | _ =>
                    Some (float_token neg (ds ++ fs)
                            (- Z.of_nat (String.length fs)), rest2)
                end
            | Some (Some e, rest2) =>
                Some (float_token neg (ds ++ fs)
                        (e - Z.of_nat (String.length fs)), rest2)
            end
        end
  end.

(** A value, the elements of an array after its opening bracket, and the
    members of an object after its opening brace.  [fuel] bounds the
    depth of the calls.  An object is decoded to the [dict] it stands
    for, so of a repeated key the last value is the one kept; that the
    validators also look at the values it replaced is not modelled. *)
Fixpoint read_value (fuel : nat) (s : string) {struct fuel}
  : option (Raw * string) :=
  match fuel with
  | O => None
  | S f =>
      match skip_ws s with
      | EmptyString => None
      | String c r =>
          if Ascii.eqb c "{" then
            match skip_ws r with
            | String "}" r' => Some (RDict [], r')
            | _ => read_members f [] r
            end
          else if Ascii.eqb c "[" then
            match skip_ws r with
            | String "]" r' => Some (RList [], r')
            | _ => read_elements f [] r
            end
          else if Ascii.eqb c quote then
            match read_string r with
            | Some (text, rest) => Some (RStr text, rest)
            | None => None
            end
          else if Ascii.eqb c "t" then read_literal "true" (RBool true) (String c r)
          else if Ascii.eqb c "f" then read_literal "false" (RBool false) (String c r)
          else if Ascii.eqb c "n" then read_literal "null" RNone (String c r)
          else if Ascii.eqb c "N" then read_literal "NaN" (RFloat "NaN") (String c r)
          else if Ascii.eqb c "I" then
            read_literal "Infinity" (RFloat "inf") (String c r)
          else read_number (String c r)
      end
  end
with read_elements (fuel : nat) (acc : list Raw) (s : string) {struct fuel}
  : option (Raw * string) :=
  match fuel with
  | O => None
  | S f =>
      match read_value f s with
      | Some (v, r) =>
          match skip_ws r with
          | String "," r' => read_elements f (acc ++ [v])%list r'
          | String "]" r' => Some (RList (acc ++ [v])%list, r')
          | _ => None
          end
      | None => None
      end
  end
with read_members (fuel : nat) (acc : list (string * Raw)) (s : string)
  {struct fuel} : option (Raw * string) :=
  match fuel with
  | O => None
  | S f =>
      match skip_ws s with
      | String c r =>
          if Ascii.eqb c quote then
            match read_string r with
            | Some (key, r1) =>
                match skip_ws r1 with
                | String ":" r2 =>
                    match read_value f r2 with
                    | Some (v, r3) =>
                        match skip_ws r3 with
                        | String "," r4 => read_members f (dict_set key v acc) r4
                        | String "}" r4 => Some (RDict (dict_set key v acc), r4)
                        | _ => None
                        end
                    | None => None
                    end
                | _ => None
                end
            | None => None
            end
          else None
      | EmptyString => None
      end
  end.

(** [json.loads]: one value, with nothing but white space after it.  Two
    calls in a row consume at least one character, so twice the length
    of the text is fuel enough. *)
Definition loads (s : string) : option Raw :=
  match read_value (2 * String.length s + 1) s with
  | Some (v, rest) =>
      match skip_ws rest with
      | EmptyString => Some v
      | String _ _ => None
      end
  | None => None
  end.

End Json.

(* ================================================================== *)
(** ** The schema: [nobitex/schema/orderbook.py] *)
(* ================================================================== *)

Import PyStr PyDecimal Pydantic.

(** [class OrderBookEntry(BaseModel)]: the validated record. *)
Record OrderBookEntry : Type := mkOrderBookEntry {
price : Decimal;
quantity : Decimal
}.

(** The [mode="before"] model validator: a list or tuple of two elements
  becomes the mapping of its elements under the two field names; any
  other input is returned as it is. *)
Definition parse_list (data : Raw) : Raw :=
match data with
| RList items | RTuple items =>
    if (List.length items =? 2)%nat
    then RDict [("price", nth 0 items RNone); ("quantity", nth 1 items RNone)]
    else data
| _ => data
end.

(** The validator of the model: [parse_list] first, then the fields. *)
Definition OrderBookEntry_validator (data : Raw) : ValResult OrderBookEntry :=
model_fields_validator
  "price" decimal_validator
  "quantity" decimal_validator
  mkOrderBookEntry
  (parse_list data).

(** [class OrderBook(BaseModel)] *)
Record OrderBook : Type := mkOrderBook {
bids : list OrderBookEntry;
asks : list OrderBookEntry
}.

Definition OrderBook_validator (data : Raw) : ValResult OrderBook :=
model_fields_validator
  "bids" (list_validator OrderBookEntry_validator)
  "asks" (list_validator OrderBookEntry_validator)
  mkOrderBook
  data.

(** [all_order_books_T = TypeAdapter(dict[str, OrderBook])] *)
Definition all_order_books_T (data : Raw)
: ValResult (list (string * OrderBook)) :=
dict_validator OrderBook_validator data.

(** *** The entry points the tests call *)

Definition validate_json {T : Type} (validator : Raw -> ValResult T)
  (text : string) : ValResult T :=
match Json.loads text with
| Some data => validator data
| None => ValidationError [error JsonInvalid (RStr text)]
end.

(** [OrderBookEntry.model_validate(data)] *)
Definition OrderBookEntry_model_validate : Raw -> ValResult OrderBookEntry :=
OrderBookEntry_validator.

(** [OrderBookEntry.model_validate_json(text)] *)
Definition OrderBookEntry_model_validate_json
: string -> ValResult OrderBookEntry :=
validate_json OrderBookEntry_validator.

(** [entry.model_dump()]: the fields as they are. *)
Definition OrderBookEntry_model_dump (e : OrderBookEntry) : Raw :=
RDict [("price", RDecimal (price e)); ("quantity", RDecimal (quantity e))].

(** [entry.model_dump_json()]: the fields in the order of their declaration,
  each [Decimal] as the JSON string of its [str()], nothing in between. *)
Definition OrderBookEntry_model_dump_json (e : OrderBookEntry) : string :=
"{" ++ Json.write_string "price" ++ ":" ++ Json.write_string (to_str (price e))
++ "," ++ Json.write_string "quantity" ++ ":"
++ Json.write_string (to_str (quantity e)) ++ "}".

(** [OrderBook.model_validate(data)] *)
Definition OrderBook_model_validate : Raw -> ValResult OrderBook :=
OrderBook_validator.

(** [OrderBook.model_validate_json(text)] *)
Definition OrderBook_model_validate_json : string -> ValResult OrderBook :=
validate_json OrderBook_validator.

(** [all_order_books_T.validate_python(data)] *)
Definition all_order_books_T_validate_python
: Raw -> ValResult (list (string * OrderBook)) :=
all_order_books_T.

(** [all_order_books_T.validate_json(text)] *)
Definition all_order_books_T_validate_json
: string -> ValResult (list (string * OrderBook)) :=
validate_json all_order_books_T.

(* ================================================================== *)
(** ** Vocabulary of the statements *)
(* ================================================================== *)

(** Every character of [s] satisfies [p]. *)
Fixpoint str_all (p : ascii -> bool) (s : string) : bool :=
match s with
| EmptyString => true
| String c r => p c && str_all p r
end.

(** [s] is empty or starts with something else than a digit. *)
Definition stops_digits (s : string) : bool :=
match s with
| EmptyString => true
| String c _ => negb (is_digit c)
end.

(** A character that [strip] and the removal of underscores leave alone. *)
Definition plain (c : ascii) : bool :=
negb (is_space c) && negb (Ascii.eqb c "_").

(** The parts of a numeric string: an optional sign, the digits before the
  point, the digits after it when there is a point, and an optional
  exponent with its letter, sign and digits. *)
Inductive SignMark : Type := NoSign | PlusSign | MinusSign.

Record Numeral : Type := mkNumeral {
num_sign : SignMark;
num_int : string;
num_frac : option string;
num_exp : option (ascii * SignMark * string)
}.

Definition sign_text (m : SignMark) : string :=
match m with
| NoSign => EmptyString
| PlusSign => "+"
| MinusSign => "-"
end.

Definition is_minus (m : SignMark) : bool :=
match m with MinusSign => true | _ => false end.

Definition frac_digits (n : Numeral) : string :=
match num_frac n with Some f => f | None => EmptyString end.

Definition frac_text (n : Numeral) : string :=
match num_frac n with Some f => String "." f | None => EmptyString end.

Definition exp_text (n : Numeral) : string :=
match num_exp n with
| Some (letter, m, ds) => String letter (sign_text m ++ ds)
| None => EmptyString
end.

(** The numeric string as written. *)
Definition numeral_text (n : Numeral) : string :=
sign_text (num_sign n) ++ num_int n ++ frac_text n ++ exp_text n.

Definition nonempty (s : string) : bool :=
match s with EmptyString => false | String _ _ => true end.

(** The parts are digits, there is a digit before or after the point, and
  an exponent has the letter E in either case and at least one digit. *)
Definition well_formed (n : Numeral) : bool :=
str_all is_digit (num_int n)
&& str_all is_digit (frac_digits n)
&& (nonempty (num_int n) || nonempty (frac_digits n))
&& match num_exp n with
   | Some (letter, _, ds) =>
       Ascii.eqb (lower_char letter) "e" && str_all is_digit ds && nonempty ds
   | None => true
   end.

Definition exp_value (n : Numeral) : Z :=
match num_exp n with
| Some (_, m, ds) =>
    let v := Z.of_N (int_of_digits ds) in
    if is_minus m then - v else v
| None => 0
end.

(** The decimal a numeric string denotes, digit for digit: the coefficient
  is the number written by all its digits, before and after the point,
  and the exponent is the written exponent less one for every digit
  after the point. *)
Definition numeral_value (n : Numeral) : Decimal :=
Finite (is_minus (num_sign n))
       (int_of_digits (num_int n ++ frac_digits n))
       (exp_value n - Z.of_nat (String.length (frac_digits n))).

(** The sign [Decimal.__str__] writes: a minus or nothing. *)
Definition mark_of (neg : bool) : SignMark :=
if neg then MinusSign else NoSign.

(** The decimal an input denotes: a numeric string, or the text of a
[float], denotes the value of its numeral once the surrounding white
space and the underscores are taken out; an [int] denotes itself with
exponent zero; a finite [Decimal] denotes itself.  In each case the
value lies within the limits of the implementation. *)
Inductive denotes : Raw -> Decimal -> Prop :=
| denotes_str (s : string) (n : Numeral) :
    well_formed n = true -> in_range (numeral_value n) = true ->
    remove "_" (strip s) = numeral_text n ->
    denotes (RStr s) (numeral_value n)
| denotes_float (repr : string) (n : Numeral) :
    well_formed n = true -> in_range (numeral_value n) = true ->
    remove "_" (strip repr) = numeral_text n ->
    denotes (RFloat repr) (numeral_value n)
| denotes_int (z : Z) :
    in_range (Finite (z <? 0) (Z.abs_N z) 0) = true ->
    denotes (RInt z) (Finite (z <? 0) (Z.abs_N z) 0)
| denotes_decimal (d : Decimal) :
    is_finite d = true -> in_range d = true -> denotes (RDecimal d) d.

(** A validator that never fails without a line error. *)
Definition never_silent {T : Type} (v : Raw -> ValResult T) : Prop :=
  forall input errs, v input = ValidationError errs -> errs <> [].

(** The number a string of digits writes, read by the standard library's
    own decimal reader (none of the code above takes part). *)
Definition written_number (digits : string) : N :=
  match NilEmpty.uint_of_string digits with
  | Some u => N.of_uint u
  | None => 0%N
  end.

Definition written_exponent (n : Numeral) : Z :=
  match num_exp n with
  | Some (_, m, ds) =>
      let v := Z.of_N (written_number ds) in
      if is_minus m then - v else v
  | None => 0
  end.

(** The decimal a numeral writes: its sign; as coefficient the number
    written by all its digits, those after the point included; as exponent
    the written exponent less the number of digits after the point.
    ["50000.0"] writes 500000 with exponent -1, ["50000"] writes 50000
    with exponent 0. *)
Definition numeral_denotation (n : Numeral) : Decimal :=
  Finite (is_minus (num_sign n))
         (written_number (num_int n ++ frac_digits n))
         (written_exponent n - Z.of_nat (String.length (frac_digits n))).

(** An input that writes its number out exactly: a numeric string, or an
    [int]; and the decimal it writes, within the limits of the
    implementation. *)
Inductive exact_input : Raw -> Decimal -> Prop :=
| exact_string (n : Numeral) :
    well_formed n = true -> in_range (numeral_denotation n) = true ->
    exact_input (RStr (numeral_text n)) (numeral_denotation n)
| exact_int (z : Z) :
    in_range (Finite (z <? 0) (Z.abs_N z) 0) = true ->
    exact_input (RInt z) (Finite (z <? 0) (Z.abs_N z) 0).

(** A numeric input: one that writes its number out exactly, or a
    [float], which stands for the number its text writes. *)
Inductive numeric_input : Raw -> Decimal -> Prop :=
| numeric_exact (input : Raw) (d : Decimal) :
    exact_input input d -> numeric_input input d
| numeric_float (n : Numeral) :
    well_formed n = true -> in_range (numeral_denotation n) = true ->
    numeric_input (RFloat (numeral_text n)) (numeral_denotation n).

(** The compact JSON text of an input that writes its number out: a
    quoted string, or an integer token. *)
Definition json_text (input : Raw) : string :=
  match input with
  | RStr s => Json.write_string s
  | RInt z => str_of_Z z
  | _ => "null"
  end.

(** A token ends at a comma or a closing bracket. *)
Definition closes (c : ascii) : Prop := c = ","%char \/ c = "]"%char.

(** The inputs the entry validator takes to its fields: a mapping, or a
    list or tuple of two elements. *)
Definition entry_shape (data : Raw) : bool :=
  match data with
  | RDict _ => true
  | RList items | RTuple items => (List.length items =? 2)%nat
  | _ => false
  end.

(** The items of a list or tuple. *)
Definition sequence_items (data : Raw) : option (list Raw) :=
  match data with
  | RList items | RTuple items => Some items
  | _ => None
  end.

Definition entry_finite (e : OrderBookEntry) : bool :=
  is_finite (price e) && is_finite (quantity e).

Definition book_finite (b : OrderBook) : bool :=
  forallb entry_finite (bids b) && forallb entry_finite (asks b).

(* ================================================================== *)
(** ** Facts about text *)
(* ================================================================== *)

Section TextFacts.

Lemma append_nil_r (s : string) : s ++ EmptyString = s.
Proof. induction s; simpl; congruence. Qed.

Lemma append_assoc (a b c : string) : (a ++ b) ++ c = a ++ b ++ c.
Proof. induction a; simpl; congruence. Qed.

Lemma length_append (a b : string) :
  String.length (a ++ b) = (String.length a + String.length b)%nat.
Proof. induction a; simpl; congruence. Qed.

Lemma take_drop (n : nat) (s : string) : take n s ++ drop n s = s.
Proof.
  revert s; induction n as [|n IH]; intros [|c r]; simpl; try reflexivity.
  now rewrite IH.
Qed.

Lemma length_take (n : nat) (s : string) :
  (n <= String.length s)%nat -> String.length (take n s) = n.
Proof.
  revert s; induction n as [|n IH]; intros [|c r]; simpl; intros H;
    try reflexivity; try lia.
  rewrite IH; [reflexivity | lia].
Qed.

Lemma length_drop (n : nat) (s : string) :
  String.length (drop n s) = (String.length s - n)%nat.
Proof.
  revert s; induction n as [|n IH]; intros [|c r]; simpl; try reflexivity.
  apply IH.
Qed.

Lemma length_repeat (c : ascii) (n : nat) : String.length (repeat c n) = n.
Proof. induction n; simpl; congruence. Qed.

Lemma str_all_append (p : ascii -> bool) (a b : string) :
  str_all p (a ++ b) = str_all p a && str_all p b.
Proof.
  induction a as [|c a IH]; simpl; [reflexivity|].
  now rewrite IH, andb_assoc.
Qed.

Lemma str_all_repeat (p : ascii -> bool) (c : ascii) (n : nat) :
  p c = true -> str_all p (repeat c n) = true.
Proof. intros H; induction n; simpl; [reflexivity | now rewrite H]. Qed.

Lemma str_all_take (p : ascii -> bool) (n : nat) (s : string) :
  str_all p s = true -> str_all p (take n s) = true.
Proof.
  revert s; induction n as [|n IH]; intros [|c r]; simpl; try reflexivity.
  intros H; apply andb_true_iff in H as [Hc Hr].
  now rewrite Hc, IH.
Qed.

Lemma str_all_drop (p : ascii -> bool) (n : nat) (s : string) :
  str_all p s = true -> str_all p (drop n s) = true.
Proof.
  revert s; induction n as [|n IH]; intros [|c r]; simpl; try easy.
  intros H; apply andb_true_iff in H as [Hc Hr].
  now apply IH.
Qed.

Lemma str_all_impl (p p' : ascii -> bool) (s : string) :
  (forall c, p c = true -> p' c = true) ->
  str_all p s = true -> str_all p' s = true.
Proof.
  intros Hpp; induction s as [|c r IH]; simpl; [reflexivity|].
  intros H; apply andb_true_iff in H as [Hc Hr].
  now rewrite (Hpp _ Hc), IH.
Qed.

End TextFacts.

(** *** Digits *)

Section DigitFacts.

Lemma span_digits_append (ds rest : string) :
  str_all is_digit ds = true -> stops_digits rest = true ->
  span_digits (ds ++ rest) = (ds, rest).
Proof.
  intros Hds Hrest; induction ds as [|c r IH]; simpl in *.
  - destruct rest as [|c r]; simpl in *; [reflexivity|].
    apply negb_true_iff in Hrest; now rewrite Hrest.
  - apply andb_true_iff in Hds as [Hc Hr].
    now rewrite Hc, (IH Hr).
Qed.

Lemma span_digits_all (ds : string) :
  str_all is_digit ds = true -> span_digits ds = (ds, EmptyString).
Proof.
  intros H; rewrite <- (append_nil_r ds) at 1.
  now apply span_digits_append.
Qed.

Lemma int_of_digits_acc_append (acc : N) (a b : string) :
  int_of_digits_acc acc (a ++ b)
  = int_of_digits_acc (int_of_digits_acc acc a) b.
Proof. revert acc; induction a as [|c a IH]; intros acc; simpl; auto. Qed.

Lemma int_of_digits_acc_zeros (n : nat) :
  int_of_digits_acc 0 (repeat "0" n) = 0%N.
Proof. induction n; simpl; auto. Qed.

Lemma int_of_digits_zeros_append (n : nat) (s : string) :
  int_of_digits (repeat "0" n ++ s) = int_of_digits s.
Proof.
  unfold int_of_digits.
  now rewrite int_of_digits_acc_append, int_of_digits_acc_zeros.
Qed.

Lemma int_of_digits_acc_uint (u : Decimal.uint) (acc : N) :
  int_of_digits_acc acc (NilEmpty.string_of_uint u)
  = (acc * 10 ^ Unsigned.usize u + Unsigned.of_lu (Decimal.rev u))%N.
Proof.
  revert acc; induction u; intros acc;
    [ simpl; lia | .. ];
    cbn [NilEmpty.string_of_uint int_of_digits_acc Unsigned.usize];
    rewrite IHu, N.pow_succ_r';
    match goal with
    | |- context [Decimal.rev (?D u)] =>
        change (Decimal.rev (D u)) with (Decimal.revapp u (D Decimal.Nil));
        rewrite (Unsigned.of_lu_revapp u (D Decimal.Nil));
        match goal with
        | |- context [digit_value ?c] =>
            let v := eval vm_compute in (digit_value c) in
            change (digit_value c) with v
        end;
        let w := eval vm_compute in (Unsigned.of_lu (D Decimal.Nil)) in
        change (Unsigned.of_lu (D Decimal.Nil)) with w
    end; lia.
Qed.

(** [int(str(n)) == n] *)
Lemma int_of_str_of_N (n : N) : int_of_digits (str_of_N n) = n.
Proof.
  unfold int_of_digits, str_of_N.
  rewrite int_of_digits_acc_uint, N.mul_0_l, N.add_0_l.
  rewrite <- Unsigned.of_uint_alt.
  apply DecimalN.Unsigned.of_to.
Qed.

Lemma string_of_uint_digits (u : Decimal.uint) :
  str_all is_digit (NilEmpty.string_of_uint u) = true.
Proof. induction u; simpl; auto. Qed.

Lemma str_of_N_digits (n : N) : str_all is_digit (str_of_N n) = true.
Proof. apply string_of_uint_digits. Qed.

Lemma str_of_N_nonempty (n : N) : str_of_N n <> EmptyString.
Proof.
  unfold str_of_N; destruct n as [|p]; simpl; [discriminate|].
  pose proof (Unsigned.to_uint_nonnil p) as H.
  destruct (Pos.to_uint p); simpl; try discriminate; congruence.
Qed.

End DigitFacts.

(** *** The decimal constructor on a numeric string *)

Section ParserFacts.

Local Ltac ascii_cases c := destruct c as [[] [] [] [] [] [] [] []].

Local Ltac split_andb :=
  repeat match goal with
    | H : _ && _ = true |- _ => apply andb_true_iff in H as [? ?]
    end.

Local Ltac open_numeral n H :=
  destruct n as [sg ip fo eo];
  unfold well_formed, frac_text, frac_digits, exp_text, exp_value in *;
  cbn [num_sign num_int num_frac num_exp] in *;
  split_andb.

Lemma split_sign_other (c : ascii) (r : string) :
  c <> "-"%char -> c <> "+"%char ->
  split_sign (String c r) = (false, String c r).
Proof. intros H1 H2; ascii_cases c; try reflexivity; congruence. Qed.

Lemma after_point_other (c : ascii) (r : string) :
  c <> "."%char -> after_point (String c r) = None.
Proof. intros H; ascii_cases c; try reflexivity; congruence. Qed.

Lemma digit_not_mark (c : ascii) :
  is_digit c = true ->
  c <> "-"%char /\ c <> "+"%char /\ c <> "."%char /\ plain c = true.
Proof. ascii_cases c; vm_compute; intros H; repeat split; congruence. Qed.

Lemma letter_e_not_mark (c : ascii) :
  Ascii.eqb (lower_char c) "e" = true ->
  is_digit c = false /\ c <> "."%char /\ plain c = true.
Proof. ascii_cases c; vm_compute; intros H; repeat split; congruence. Qed.

Lemma digits_plain (s : string) :
  str_all is_digit s = true -> str_all plain s = true.
Proof. apply str_all_impl; intros c H; now apply digit_not_mark. Qed.

Lemma rstrip_plain (s : string) : str_all plain s = true -> rstrip s = s.
Proof.
  induction s as [|c r IH]; simpl; [reflexivity|].
  intros H; apply andb_true_iff in H as [Hc Hr].
  rewrite (IH Hr).
  unfold plain in Hc; apply andb_true_iff in Hc as [Hc _].
  apply negb_true_iff in Hc; rewrite Hc.
  now destruct r.
Qed.

Lemma lstrip_plain (s : string) : str_all plain s = true -> lstrip s = s.
Proof.
  destruct s as [|c r]; simpl; [reflexivity|].
  intros H; apply andb_true_iff in H as [Hc _].
  unfold plain in Hc; apply andb_true_iff in Hc as [Hc _].
  apply negb_true_iff in Hc; now rewrite Hc.
Qed.

Lemma remove_plain (s : string) : str_all plain s = true -> remove "_" s = s.
Proof.
  induction s as [|c r IH]; simpl; [reflexivity|].
  intros H; apply andb_true_iff in H as [Hc Hr].
  unfold plain in Hc; apply andb_true_iff in Hc as [_ Hc].
  apply negb_true_iff in Hc; rewrite Hc.
  now rewrite (IH Hr).
Qed.

Lemma strip_remove_plain (s : string) :
  str_all plain s = true -> remove "_" (strip s) = s.
Proof.
  intros H; unfold strip.
  now rewrite (lstrip_plain _ H), (rstrip_plain _ H), (remove_plain _ H).
Qed.

Lemma sign_text_plain (m : SignMark) : str_all plain (sign_text m) = true.
Proof. now destruct m. Qed.

(** The sign is split off a text whose body starts with no sign. *)
Lemma split_sign_text (m : SignMark) (body : string) :
  split_sign body = (false, body) ->
  split_sign (sign_text m ++ body) = (is_minus m, body).
Proof. destruct m; simpl; auto. Qed.

Lemma split_sign_digits (ds : string) :
  str_all is_digit ds = true -> split_sign ds = (false, ds).
Proof.
  destruct ds as [|c r]; simpl str_all; [reflexivity|].
  intros H; apply andb_true_iff in H as [Hc _].
  apply digit_not_mark in Hc as (H1 & H2 & _).
  now apply split_sign_other.
Qed.

Lemma parse_exponent_text (letter : ascii) (m : SignMark) (ds : string) :
  Ascii.eqb (lower_char letter) "e" = true ->
  str_all is_digit ds = true -> nonempty ds = true ->
  parse_exponent (String letter (sign_text m ++ ds))
  = Some (let v := Z.of_N (int_of_digits ds) in if is_minus m then - v else v).
Proof.
  intros He Hds Hne; unfold parse_exponent; rewrite He.
  rewrite (split_sign_text m ds (split_sign_digits ds Hds)).
  rewrite (span_digits_all ds Hds).
  destruct ds; [discriminate | reflexivity].
Qed.

Lemma exp_text_stops (n : Numeral) :
  well_formed n = true ->
  stops_digits (exp_text n) = true /\ after_point (exp_text n) = None
  /\ str_all plain (exp_text n) = true
  /\ parse_exponent (exp_text n) = Some (exp_value n).
Proof.
  intros Hwf; open_numeral n Hwf.
  destruct eo as [[[letter m] ds]|]; [|now auto].
  split_andb.
  match goal with He : Ascii.eqb _ _ = true |- _ =>
    pose proof (letter_e_not_mark _ He) as (Hd & Hp & Hpl) end.
  repeat split.
  - cbn [stops_digits]; now rewrite Hd.
  - now apply after_point_other.
  - cbn [str_all]; rewrite Hpl, str_all_append, sign_text_plain; simpl.
    now apply digits_plain.
  - now apply parse_exponent_text.
Qed.

Lemma parse_number_numeral (n : Numeral) :
  well_formed n = true ->
  parse_number (num_int n ++ frac_text n ++ exp_text n)
  = Some (num_int n, frac_digits n, exp_value n).
Proof.
  intros Hwf; pose proof (exp_text_stops n Hwf) as (Hstop & Hpt & _ & Hexp).
  revert Hstop Hpt Hexp; generalize (exp_text n) (exp_value n).
  intros et ev Hstop Hpt Hexp; open_numeral n Hwf; unfold parse_number.
  destruct fo as [f|].
  - rewrite span_digits_append by auto.
    simpl after_point; cbv iota.
    rewrite span_digits_append by auto.
    rewrite Hexp.
    destruct ip, f; simpl in *; try reflexivity; discriminate.
  - simpl append. rewrite span_digits_append by auto.
    rewrite Hpt, Hexp.
    destruct ip; simpl in *; try reflexivity; discriminate.
Qed.

Lemma numeral_body_unsigned (n : Numeral) :
  well_formed n = true ->
  split_sign (num_int n ++ frac_text n ++ exp_text n)
  = (false, num_int n ++ frac_text n ++ exp_text n).
Proof.
  intros Hwf; generalize (exp_text n); intros et.
  open_numeral n Hwf; destruct ip as [|c ip].
  - destruct fo as [f|]; simpl in *; [reflexivity | discriminate].
  - cbn [str_all] in *; split_andb.
    match goal with Hc : is_digit c = true |- _ =>
      apply digit_not_mark in Hc as (Hminus & Hplus & _) end.
    now apply split_sign_other.
Qed.

Lemma numeral_text_plain (n : Numeral) :
  well_formed n = true -> str_all plain (numeral_text n) = true.
Proof.
  intros Hwf; pose proof (exp_text_stops n Hwf) as (_ & _ & Hpl & _).
  unfold numeral_text; rewrite !str_all_append, Hpl, sign_text_plain.
  clear Hpl; open_numeral n Hwf.
  rewrite (digits_plain ip) by assumption.
  destruct fo as [f|]; simpl; [|reflexivity].
  now rewrite (digits_plain f).
Qed.

Lemma parse_special_not_finite (sign : bool) (s : string) (d : Decimal) :
  parse_special sign s = Some d -> is_finite d = false.
Proof.
  unfold parse_special.
  destruct (_ || _); [now intros [= <-]|].
  destruct (match lower s with String "s" r => (true, r) | _ => (false, lower s) end)
    as [signal r].
  repeat match goal with
    | |- context [match ?x with _ => _ end] => destruct x; try discriminate
    end.
  all: now intros [= <-].
Qed.

(** The constructor reads a well-formed numeric string as the decimal it
    denotes. *)
Lemma of_str_numeral (n : Numeral) :
  well_formed n = true -> of_str (numeral_text n) = exact (numeral_value n).
Proof.
  intros Hwf; unfold of_str.
  rewrite (strip_remove_plain _ (numeral_text_plain n Hwf)).
  unfold numeral_text.
  rewrite (split_sign_text _ _ (numeral_body_unsigned n Hwf)).
  now rewrite (parse_number_numeral n Hwf).
Qed.

End ParserFacts.

(** *** [Decimal.__str__] and back *)

Section ToStrFacts.

Lemma nonempty_length (s : string) : nonempty s = true <-> (0 < String.length s)%nat.
Proof. destruct s; simpl; split; intros; try lia; try discriminate; auto. Qed.

Lemma str_of_N_length (c : N) : (1 <= String.length (str_of_N c))%nat.
Proof. pose proof (str_of_N_nonempty c); destruct (str_of_N c); simpl; [congruence|lia]. Qed.

Lemma is_minus_mark_of (s : bool) : is_minus (mark_of s) = s.
Proof. now destruct s. Qed.

Lemma sign_text_mark_of (s : bool) : sign_text (mark_of s) = if s then "-" else EmptyString.
Proof. now destruct s. Qed.

Lemma int_of_digits_zero_append (s : string) : int_of_digits (String "0" s) = int_of_digits s.
Proof. reflexivity. Qed.

Lemma to_str_numeral (s : bool) (c : N) (e : Z) :
  exists n, well_formed n = true /\ numeral_text n = to_str (Finite s c e)
            /\ numeral_value n = Finite s c e.
Proof.
  unfold to_str.
  pose proof (str_of_N_digits c) as Hd.
  pose proof (str_of_N_length c) as Hl.
  pose proof (int_of_str_of_N c) as Hv.
  set (ds := str_of_N c) in *.
  set (len := Z.of_nat (String.length ds)) in *.
  destruct ((e <=? 0) && (-6 <? e + len)) eqn:Hplain.
  - apply andb_true_iff in Hplain as [He Hld].
    apply Z.leb_le in He. apply Z.ltb_lt in Hld.
    rewrite Z.eqb_refl.
    destruct (e + len <=? 0) eqn:H1; [|destruct (len <=? e + len) eqn:H2].
    + apply Z.leb_le in H1.
      exists (mkNumeral (mark_of s) "0" (Some (repeat "0" (Z.to_nat (- (e + len))) ++ ds)) None).
      unfold well_formed, numeral_text, numeral_value, frac_text, frac_digits, exp_text, exp_value.
      cbn [num_sign num_int num_frac num_exp].
      rewrite is_minus_mark_of, sign_text_mark_of.
      repeat split.
      * rewrite str_all_append, str_all_repeat, Hd by reflexivity. reflexivity.
      * change ("0" ++ repeat "0" (Z.to_nat (- (e + len))) ++ ds)
          with (String "0" (repeat "0" (Z.to_nat (- (e + len))) ++ ds)).
        rewrite int_of_digits_zero_append, int_of_digits_zeros_append, Hv.
        rewrite length_append, length_repeat. f_equal. lia.
    + apply Z.leb_le in H2. apply Z.leb_gt in H1.
      exists (mkNumeral (mark_of s) (ds ++ repeat "0" (Z.to_nat (e + len - len))) None None).
      unfold well_formed, numeral_text, numeral_value, frac_text, frac_digits, exp_text, exp_value.
      cbn [num_sign num_int num_frac num_exp].
      rewrite is_minus_mark_of, sign_text_mark_of.
      replace (Z.to_nat (e + len - len)) with 0%nat by lia.
      cbn [repeat]; rewrite !append_nil_r.
      repeat split.
      * rewrite Hd. destruct ds; [simpl in Hl; lia | reflexivity].
      * rewrite Hv. f_equal. simpl. lia.
    + apply Z.leb_gt in H1, H2.
      exists (mkNumeral (mark_of s) (take (Z.to_nat (e + len)) ds) (Some (drop (Z.to_nat (e + len)) ds)) None).
      unfold well_formed, numeral_text, numeral_value, frac_text, frac_digits, exp_text, exp_value.
      cbn [num_sign num_int num_frac num_exp].
      rewrite is_minus_mark_of, sign_text_mark_of.
      repeat split.
      * rewrite str_all_take, str_all_drop by assumption.
        assert (Hn : nonempty (take (Z.to_nat (e + len)) ds) = true).
        { apply nonempty_length. rewrite length_take; lia. }
        now rewrite Hn.
      * rewrite take_drop, Hv, length_drop. f_equal. lia.
  - assert (Hld : e + len <> 1).
    { apply andb_false_iff in Hplain as [H|H];
        [apply Z.leb_gt in H | apply Z.ltb_ge in H]; lia. }
    apply Z.eqb_neq in Hld; rewrite Hld.
    change (1 <=? 0) with false; cbv iota.
    set (z := e + len - 1).
    pose (ex := Some ("E"%char, (if z <? 0 then MinusSign else PlusSign),
                      str_of_N (Z.abs_N z))).
    assert (Hex : Z.of_N (int_of_digits (str_of_N (Z.abs_N z))) = Z.abs z).
    { rewrite int_of_str_of_N. lia. }
    destruct (len <=? 1) eqn:H2.
    + apply Z.leb_le in H2.
      exists (mkNumeral (mark_of s) (ds ++ repeat "0" (Z.to_nat (1 - len))) None ex).
      unfold well_formed, numeral_text, numeral_value, frac_text, frac_digits, exp_text, exp_value, ex, format_plus_d.
      cbn [num_sign num_int num_frac num_exp].
      rewrite is_minus_mark_of, sign_text_mark_of.
      replace (Z.to_nat (1 - len)) with 0%nat by lia.
      cbn [repeat]; rewrite !append_nil_r.
      repeat split.
      * rewrite Hd, str_of_N_digits.
        pose proof (str_of_N_length (Z.abs_N z)).
        destruct ds; [simpl in Hl; lia|].
        destruct (str_of_N (Z.abs_N z)); [simpl in *; lia | reflexivity].
      * destruct (z <? 0); reflexivity.
      * rewrite Hv, Hex. f_equal. simpl String.length.
        destruct (z <? 0) eqn:Hz; [apply Z.ltb_lt in Hz | apply Z.ltb_ge in Hz];
          cbn [is_minus]; lia.
    + apply Z.leb_gt in H2.
      exists (mkNumeral (mark_of s) (take (Z.to_nat 1) ds) (Some (drop (Z.to_nat 1) ds)) ex).
      unfold well_formed, numeral_text, numeral_value, frac_text, frac_digits, exp_text, exp_value, ex, format_plus_d.
      cbn [num_sign num_int num_frac num_exp].
      rewrite is_minus_mark_of, sign_text_mark_of.
      repeat split.
      * rewrite str_all_take, str_all_drop, str_of_N_digits by assumption.
        assert (Hn : nonempty (take (Z.to_nat 1) ds) = true).
        { apply nonempty_length. rewrite length_take; lia. }
        rewrite Hn.
        pose proof (str_of_N_length (Z.abs_N z)).
        destruct (str_of_N (Z.abs_N z)); [simpl in *; lia | reflexivity].
      * destruct (z <? 0); reflexivity.
      * rewrite take_drop, Hv, Hex, length_drop. f_equal.
        destruct (z <? 0) eqn:Hz; [apply Z.ltb_lt in Hz | apply Z.ltb_ge in Hz];
          cbn [is_minus]; lia.
Qed.

Lemma of_str_to_str (s : bool) (c : N) (e : Z) :
  of_str (to_str (Finite s c e)) = exact (Finite s c e).
Proof.
  destruct (to_str_numeral s c e) as (n & Hwf & Htext & Hval).
  rewrite <- Htext, <- Hval. now apply of_str_numeral.
Qed.

End ToStrFacts.

(** *** JSON text: reading back what was written *)

Section JsonFacts.
Import Json.

Lemma read_string_escape_char (c : ascii) (rest : string) :
read_string (escape_char c ++ rest) = push c (read_string rest).
Proof.
destruct c as [[] [] [] [] [] [] [] []]; reflexivity.
Qed.

Lemma read_string_escape (s rest : string) :
read_string (escape s ++ String quote rest) = Some (s, rest).
Proof.
induction s as [|c r IH]; [reflexivity|].
cbn [escape]. rewrite append_assoc, read_string_escape_char, IH.
reflexivity.
Qed.

Lemma read_string_written (s rest : string) :
read_string (escape s ++ String quote EmptyString ++ rest) = Some (s, rest).
Proof. apply read_string_escape. Qed.

Lemma skip_ws_quote (r : string) : skip_ws (String quote r) = String quote r.
Proof. reflexivity. Qed.

Lemma read_value_string (f : nat) (s rest : string) :
read_value (S f) (write_string s ++ rest) = Some (RStr s, rest).
Proof.
unfold write_string.
change (String quote (escape s ++ String quote EmptyString) ++ rest)
  with (String quote ((escape s ++ String quote EmptyString) ++ rest)).
rewrite append_assoc.
cbn [read_value]. rewrite skip_ws_quote.
change (Ascii.eqb quote "{") with false.
change (Ascii.eqb quote "[") with false.
change (Ascii.eqb quote quote) with true.
cbv iota.
now rewrite read_string_written.
Qed.

Lemma read_members_more (f : nat) (acc : list (string * Raw)) (k v rest : string) :
read_members (S (S f)) acc
  (write_string k ++ ":" ++ write_string v ++ "," ++ rest)
= read_members (S f) (dict_set k (RStr v) acc) rest.
Proof.
unfold write_string at 1.
change (String quote (escape k ++ String quote EmptyString) ++ ?x)
  with (String quote ((escape k ++ String quote EmptyString) ++ x)).
rewrite append_assoc.
cbn [read_members]. rewrite skip_ws_quote.
change (Ascii.eqb quote quote) with true; cbv iota.
rewrite read_string_written.
change (skip_ws (":" ++ ?x)) with (String ":" x).
cbv iota.
rewrite read_value_string.
reflexivity.
Qed.

Lemma read_members_last (f : nat) (acc : list (string * Raw)) (k v rest : string) :
read_members (S (S f)) acc
  (write_string k ++ ":" ++ write_string v ++ "}" ++ rest)
= Some (RDict (dict_set k (RStr v) acc), rest).
Proof.
unfold write_string at 1.
change (String quote (escape k ++ String quote EmptyString) ++ ?x)
  with (String quote ((escape k ++ String quote EmptyString) ++ x)).
rewrite append_assoc.
cbn [read_members]. rewrite skip_ws_quote.
change (Ascii.eqb quote quote) with true; cbv iota.
rewrite read_string_written.
change (skip_ws (":" ++ ?x)) with (String ":" x).
cbv iota.
rewrite read_value_string.
reflexivity.
Qed.

Lemma read_value_object2 (f : nat) (k1 v1 k2 v2 rest : string) :
read_value (S (S (S (S f))))
  ("{" ++ write_string k1 ++ ":" ++ write_string v1 ++ ","
       ++ write_string k2 ++ ":" ++ write_string v2 ++ "}" ++ rest)
= Some (RDict (dict_set k2 (RStr v2) [(k1, RStr v1)]), rest).
Proof.
change (read_value (S (S (S (S f)))) ("{" ++ ?x))
  with (match skip_ws x with
        | String "}" r' => Some (RDict [], r')
        | _ => read_members (S (S (S f))) [] x
        end).
unfold write_string at 1.
change (String quote ?a ++ ?x) with (String quote (a ++ x)).
rewrite skip_ws_quote.
change (match String quote ?y with String "}" r' => ?a | _ => ?b end) with b.
change (String quote ((escape k1 ++ String quote EmptyString) ++ ?x))
  with (write_string k1 ++ x).
rewrite !append_assoc.
rewrite read_members_more, read_members_last.
reflexivity.
Qed.

Lemma loads_dump_json (e : OrderBookEntry) :
Json.loads (OrderBookEntry_model_dump_json e)
= Some (RDict [("price", RStr (to_str (price e)));
               ("quantity", RStr (to_str (quantity e)))]).
Proof.
unfold loads.
assert (Hlen : (2 <= String.length (OrderBookEntry_model_dump_json e))%nat).
{ unfold OrderBookEntry_model_dump_json, write_string; simpl; lia. }
destruct (2 * String.length (OrderBookEntry_model_dump_json e) + 1)%nat
  as [|[|[|[|f]]]] eqn:E; try lia.
unfold OrderBookEntry_model_dump_json.
pose proof (read_value_object2 f "price" (to_str (price e))
              "quantity" (to_str (quantity e)) EmptyString) as R.
change ("}" ++ EmptyString) with "}" in R.
rewrite R.
reflexivity.
Qed.

Lemma decimal_validator_to_str (d : Decimal) :
  is_finite d = true -> in_range d = true ->
  decimal_validator (RStr (to_str d)) = Ok d.
Proof.
  destruct d as [s c x| |]; try discriminate; intros _ Hr.
  unfold decimal_validator, validate_decimal, create_decimal.
  rewrite of_str_to_str; unfold exact; now rewrite Hr.
Qed.

Lemma validate_decimal_in_range (input : Raw) (d : Decimal) :
  validate_decimal input = Ok d -> is_finite d = true -> in_range d = true.
Proof.
  assert (Hexact : forall x, exact x = Some d -> in_range d = true).
  { intros x; unfold exact; destruct (in_range x) eqn:Hx; [|discriminate].
    now intros [= <-]. }
  assert (Hstr : forall s, of_str s = Some d -> is_finite d = true ->
                           in_range d = true).
  { intros s; unfold of_str.
    destruct (split_sign (remove "_" (strip s))) as [neg body].
    destruct (parse_number body) as [[[ip fp] e]|]; [intros H _; eauto|].
    intros H Hf; apply parse_special_not_finite in H; congruence. }
  unfold validate_decimal, create_decimal, constructed.
  destruct input as [| |z|repr|s|d'| | |]; try discriminate.
  - unfold of_int. destruct (exact _) as [d0|] eqn:Hz; [|discriminate].
    intros [= <-] _; eauto.
  - destruct (of_str repr) as [d0|] eqn:Ho; [|discriminate].
    intros [= <-]; eauto.
  - destruct (of_str s) as [d0|] eqn:Ho; [|discriminate].
    intros [= <-]; eauto.
  - destruct (in_range d') eqn:Hr; [|discriminate]. now intros [= <-].
Qed.

Lemma decimal_validator_in_range (input : Raw) (d : Decimal) :
  decimal_validator input = Ok d -> in_range d = true.
Proof.
  unfold decimal_validator.
  destruct (validate_decimal input) as [d'|] eqn:Hv; [|discriminate].
  destruct (is_finite d') eqn:H; [|discriminate].
  intros [= <-]. exact (validate_decimal_in_range _ _ Hv H).
Qed.

Lemma decimal_validator_finite (input : Raw) (d : Decimal) :
decimal_validator input = Ok d -> is_finite d = true.
Proof.
unfold decimal_validator.
destruct (validate_decimal input) as [d'|]; [|discriminate].
destruct (is_finite d') eqn:H; [|discriminate].
now intros [= <-].
Qed.

Lemma entry_fields_ok (items : list (string * Raw)) (e : OrderBookEntry) :
model_fields_validator "price" decimal_validator "quantity" decimal_validator
  mkOrderBookEntry (RDict items) = Ok e ->
exists p q, dict_get "price" items = Some p /\ dict_get "quantity" items = Some q
  /\ decimal_validator p = Ok (price e) /\ decimal_validator q = Ok (quantity e).
Proof.
unfold model_fields_validator, validate_field.
destruct (dict_get "price" items) as [p|]; [|discriminate].
destruct (dict_get "quantity" items) as [q|].
- destruct (decimal_validator p) as [dp|] eqn:Hp;
    destruct (decimal_validator q) as [dq|] eqn:Hq; try discriminate.
  intros [= <-]; exists p, q; auto.
- destruct (decimal_validator p); discriminate.
Qed.

Lemma validated_entry_finite (data : Raw) (e : OrderBookEntry) :
OrderBookEntry_validator data = Ok e ->
is_finite (price e) = true /\ is_finite (quantity e) = true.
Proof.
unfold OrderBookEntry_validator.
destruct (parse_list data) as [| | | | | | | |items] eqn:Hd; try discriminate.
intros H; apply entry_fields_ok in H as (p & q & _ & _ & Hp & Hq).
split; eapply decimal_validator_finite; eassumption.
Qed.

Lemma validated_entry_in_range (data : Raw) (e : OrderBookEntry) :
  OrderBookEntry_validator data = Ok e ->
  in_range (price e) = true /\ in_range (quantity e) = true.
Proof.
  unfold OrderBookEntry_validator.
  destruct (parse_list data) as [| | | | | | | |items] eqn:Hd; try discriminate.
  intros H; apply entry_fields_ok in H as (p & q & _ & _ & Hp & Hq).
  split; eapply decimal_validator_in_range; eassumption.
Qed.

End JsonFacts.

(** *** The decimal constructor, read backwards *)

Section ParserInversion.

Local Ltac ascii_cases c := destruct c as [[] [] [] [] [] [] [] []].

Lemma span_digits_inv (s ds rest : string) :
  span_digits s = (ds, rest) ->
  s = ds ++ rest /\ str_all is_digit ds = true /\ stops_digits rest = true.
Proof.
  revert ds rest; induction s as [|c r IH]; simpl; intros ds rest.
  - now intros [= <- <-].
  - destruct (is_digit c) eqn:Hc.
    + destruct (span_digits r) as [d t]; intros [= <- <-].
      destruct (IH d t eq_refl) as (-> & Hd & Ht).
      simpl; now rewrite Hc, Hd.
    + intros [= <- <-]; simpl; now rewrite Hc.
Qed.

Lemma split_sign_inv (s body : string) (neg : bool) :
  split_sign s = (neg, body) ->
  exists m, s = sign_text m ++ body /\ neg = is_minus m.
Proof.
  destruct s as [|c r].
  - intros [= <- <-]; now exists NoSign.
  - ascii_cases c; intros [= <- <-];
      first [ now exists NoSign | now exists PlusSign | now exists MinusSign ].
Qed.

Lemma after_point_inv (s : string) :
  match after_point s with
  | Some r => s = String "." r
  | None => True
  end.
Proof.
  destruct s as [|c r]; [exact I|].
  ascii_cases c; simpl; auto.
Qed.

Lemma nonempty_string (c : ascii) (s : string) : nonempty (String c s) = true.
Proof. reflexivity. Qed.

Lemma parse_exponent_inv (s : string) (e : Z) :
  parse_exponent s = Some e ->
  (s = EmptyString /\ e = 0)
  \/ exists letter m ds,
       s = String letter (sign_text m ++ ds)
       /\ Ascii.eqb (lower_char letter) "e" = true
       /\ str_all is_digit ds = true /\ nonempty ds = true
       /\ e = (let v := Z.of_N (int_of_digits ds) in if is_minus m then - v else v).
Proof.
  destruct s as [|c r]; simpl.
  - intros [= <-]; now left.
  - destruct (Ascii.eqb (lower_char c) "e") eqn:Hc; [|discriminate].
    destruct (split_sign r) as [neg r1] eqn:Hs.
    destruct (span_digits r1) as [ds rest] eqn:Hd.
    apply split_sign_inv in Hs as (m & -> & ->).
    apply span_digits_inv in Hd as (-> & Hds & _).
    destruct ds as [|d ds]; [discriminate|].
    destruct rest; [|discriminate].
    intros [= <-]; right; exists c, m, (String d ds).
    rewrite append_nil_r. repeat split; auto.
Qed.

Lemma parse_number_inv (body ip fp : string) (e : Z) :
  parse_number body = Some (ip, fp, e) ->
  exists n, well_formed n = true /\ num_sign n = NoSign
            /\ body = numeral_text n
            /\ num_int n = ip /\ frac_digits n = fp /\ exp_value n = e.
Proof.
  unfold parse_number.
  destruct (span_digits body) as [ip' r1] eqn:Hi.
  apply span_digits_inv in Hi as (-> & Hip & _).
  pose proof (after_point_inv r1) as Hpt.
  destruct (after_point r1) as [r|].
  - subst r1. destruct (span_digits r) as [fp' r2] eqn:Hf.
    apply span_digits_inv in Hf as (-> & Hfp & _).
    intros H.
    assert (Hne : nonempty ip' || nonempty fp' = true)
      by (destruct ip', fp'; simpl; auto; discriminate).
    assert (H' : match parse_exponent r2 with
                 | Some e0 => Some (ip', fp', e0) | None => None end
                 = Some (ip, fp, e))
      by (destruct ip', fp'; auto; discriminate).
    clear H. destruct (parse_exponent r2) as [e0|] eqn:He; [|discriminate].
    injection H' as <- <- <-.
    apply parse_exponent_inv in He
      as [[-> ->] | (letter & m & ds & -> & Hl & Hds & Hn & ->)].
    + exists (mkNumeral NoSign ip' (Some fp') None).
      unfold well_formed, numeral_text, frac_text, frac_digits, exp_text, exp_value.
      cbn [num_sign num_int num_frac num_exp sign_text].
      rewrite Hip, Hfp, Hne. repeat split.
    + exists (mkNumeral NoSign ip' (Some fp') (Some (letter, m, ds))).
      unfold well_formed, numeral_text, frac_text, frac_digits, exp_text, exp_value.
      cbn [num_sign num_int num_frac num_exp sign_text].
      rewrite Hip, Hfp, Hne, Hl, Hds, Hn. repeat split.
  - intros H.
    assert (Hne : nonempty ip' = true)
      by (destruct ip'; simpl; auto; discriminate).
    assert (H' : match parse_exponent r1 with
                 | Some e0 => Some (ip', EmptyString, e0) | None => None end
                 = Some (ip, fp, e))
      by (destruct ip'; auto; discriminate).
    clear H. destruct (parse_exponent r1) as [e0|] eqn:He; [|discriminate].
    injection H' as <- <- <-.
    apply parse_exponent_inv in He
      as [[-> ->] | (letter & m & ds & -> & Hl & Hds & Hn & ->)].
    + exists (mkNumeral NoSign ip' None None).
      unfold well_formed, numeral_text, frac_text, frac_digits, exp_text, exp_value.
      cbn [num_sign num_int num_frac num_exp sign_text].
      rewrite Hip, Hne. repeat split.
    + exists (mkNumeral NoSign ip' None (Some (letter, m, ds))).
      unfold well_formed, numeral_text, frac_text, frac_digits, exp_text, exp_value.
      cbn [num_sign num_int num_frac num_exp sign_text].
      rewrite Hip, Hne, Hl, Hds, Hn. repeat split.
Qed.

Lemma of_str_finite_inv (s : string) (d : Decimal) :
  of_str s = Some d -> is_finite d = true ->
  exists n, well_formed n = true /\ in_range (numeral_value n) = true
            /\ remove "_" (strip s) = numeral_text n /\ d = numeral_value n.
Proof.
  unfold of_str.
  destruct (split_sign (remove "_" (strip s))) as [neg body] eqn:Hs.
  apply split_sign_inv in Hs as (m & Hs & ->).
  destruct (parse_number body) as [[[ip fp] e]|] eqn:Hn.
  - unfold exact.
    destruct (in_range (Finite (is_minus m) (int_of_digits (ip ++ fp))
                          (e - Z.of_nat (String.length fp)))) eqn:Hr;
      [|discriminate].
    intros [= <-] _.
    apply parse_number_inv in Hn as (n0 & Hwf & Hsg & Hb & <- & <- & <-).
    destruct n0 as [sg ip0 fo eo]; cbn [num_sign] in Hsg; subst sg.
    exists (mkNumeral m ip0 fo eo); repeat split.
    + exact Hwf.
    + exact Hr.
    + rewrite Hs, Hb. reflexivity.
  - intros H Hf. apply parse_special_not_finite in H. congruence.
Qed.

Lemma of_str_numeral_text (s : string) (n : Numeral) :
  well_formed n = true -> remove "_" (strip s) = numeral_text n ->
  of_str s = exact (numeral_value n).
Proof.
  intros Hwf Hs. pose proof (of_str_numeral n Hwf) as H.
  unfold of_str in *. rewrite Hs.
  now rewrite (strip_remove_plain _ (numeral_text_plain n Hwf)) in H.
Qed.

Lemma decimal_validator_denotes (input : Raw) (d : Decimal) :
  decimal_validator input = Ok d <-> denotes input d.
Proof.
  split.
  - unfold decimal_validator.
    destruct (validate_decimal input) as [d'|] eqn:Hv; [|discriminate].
    destruct (is_finite d') eqn:Hf; [|discriminate].
    intros [= ->].
    destruct input as [| |z|repr|s|d0| | |];
      unfold validate_decimal, create_decimal, constructed in Hv;
      try discriminate.
    + unfold of_int, exact in Hv.
      destruct (in_range (Finite (z <? 0) (Z.abs_N z) 0)) eqn:Hr;
        [|discriminate].
      injection Hv as <-. now constructor.
    + destruct (of_str repr) as [d0|] eqn:Ho; [|discriminate].
      injection Hv as ->.
      destruct (of_str_finite_inv _ _ Ho Hf) as (n & Hwf & Hr & Ht & ->).
      now constructor.
    + destruct (of_str s) as [d0|] eqn:Ho; [|discriminate].
      injection Hv as ->.
      destruct (of_str_finite_inv _ _ Ho Hf) as (n & Hwf & Hr & Ht & ->).
      now constructor.
    + destruct (in_range d0) eqn:Hr; [|discriminate].
      injection Hv as ->. now constructor.
  - intros H; destruct H as [s n Hwf Hr Ht|r n Hwf Hr Ht|z Hr|d0 Hf Hr];
      unfold decimal_validator, validate_decimal, create_decimal, constructed.
    + rewrite (of_str_numeral_text s n Hwf Ht); unfold exact; now rewrite Hr.
    + rewrite (of_str_numeral_text r n Hwf Ht); unfold exact; now rewrite Hr.
    + unfold of_int, exact; now rewrite Hr.
    + now rewrite Hr, Hf.
Qed.

End ParserInversion.

(** *** The entry validator *)

Lemma entry_of_mapping (items : list (string * Raw)) (p q : Raw) :
  dict_get "price" items = Some p -> dict_get "quantity" items = Some q ->
  OrderBookEntry_validator (RDict items) = OrderBookEntry_validator (RList [p; q]).
Proof.
  intros Hp Hq.
  unfold OrderBookEntry_validator, parse_list, model_fields_validator, validate_field.
  cbn [List.length Nat.eqb nth dict_get String.eqb Ascii.eqb Bool.eqb].
  now rewrite Hp, Hq.
Qed.

Lemma entry_of_pair (p q : Raw) :
  OrderBookEntry_validator (RList [p; q])
  = match decimal_validator p, decimal_validator q with
    | Ok dp, Ok dq => Ok (mkOrderBookEntry dp dq)
    | r1, r2 =>
        ValidationError
          (map (with_outer_location (LKey "price")) (errors_of r1)
           ++ map (with_outer_location (LKey "quantity")) (errors_of r2))%list
    end.
Proof.
  unfold OrderBookEntry_validator, parse_list, model_fields_validator, validate_field.
  cbn [List.length Nat.eqb nth dict_get String.eqb Ascii.eqb Bool.eqb].
  destruct (decimal_validator p), (decimal_validator q); reflexivity.
Qed.

Lemma entry_of_sequence (items : list Raw) :
  List.length items <> 2%nat ->
  OrderBookEntry_validator (RList items)
  = ValidationError [error ModelType (RList items)]
  /\ OrderBookEntry_validator (RTuple items)
     = ValidationError [error ModelType (RTuple items)].
Proof.
  intros H; unfold OrderBookEntry_validator, parse_list.
  apply Nat.eqb_neq in H; rewrite H. split; reflexivity.
Qed.

(** *** Lists and dicts *)

Section ContainerFacts.
Context {T : Type} (v : Raw -> ValResult T).

Lemma validate_items_ok (items : list Raw) (out : list T) (index : nat) :
  Forall2 (fun r e => v r = Ok e) items out ->
  validate_items v index items = (out, []).
Proof.
  intros H; revert index; induction H as [|r e rs es Hr _ IH]; intros index.
  - reflexivity.
  - cbn [validate_items]. now rewrite IH, Hr.
Qed.

Lemma validate_items_ok_inv (items : list Raw) (out : list T) (index : nat) :
  (forall r errs, In r items -> v r = ValidationError errs -> errs <> []) ->
  validate_items v index items = (out, []) ->
  Forall2 (fun r e => v r = Ok e) items out.
Proof.
  revert out index; induction items as [|r rs IH]; intros out index Hne.
  - intros [= <-]; constructor.
  - cbn [validate_items].
    destruct (validate_items v (S index) rs) as [o errs] eqn:Hrs.
    destruct (v r) as [e|line_errors] eqn:Hr.
    + intros [= <- ->]. constructor; [exact Hr|].
      apply (IH o (S index)); [|exact Hrs].
      intros r' e' Hin; apply Hne; now right.
    + intros [= <- H]. apply app_eq_nil in H as [H _].
      apply map_eq_nil in H.
      exfalso; apply (Hne r line_errors); [now left | exact Hr | exact H].
Qed.

Lemma list_validator_ok (items : list Raw) (out : list T) :
  Forall2 (fun r e => v r = Ok e) items out ->
  list_validator v (RList items) = Ok out
  /\ list_validator v (RTuple items) = Ok out.
Proof.
  intros H; unfold list_validator.
  now rewrite (validate_items_ok items out 0 H).
Qed.

Lemma list_validator_errors_nonempty (input : Raw) (errs : list LineError) :
  list_validator v input = ValidationError errs -> errs <> [].
Proof.
  unfold list_validator.
  destruct input; try (intros [= <-]; discriminate).
  all: destruct (validate_items v 0 items) as [o [|e es]];
    [discriminate | intros [= <-]; discriminate].
Qed.

(** What the loop over a dict's items returns: the values of the items
    that validate, under their keys and in order, and the errors of the
    others, each under its key. *)
Lemma validate_dict_items_output (items : list (string * Raw)) :
  fst (validate_dict_items v items)
  = flat_map (fun kv => match v (snd kv) with
                        | Ok b => [(fst kv, b)]
                        | ValidationError _ => []
                        end) items.
Proof.
  induction items as [|[k r] rest IH]; [reflexivity|].
  cbn [validate_dict_items flat_map fst snd].
  destruct (validate_dict_items v rest) as [o errs]; cbn [fst] in IH.
  destruct (v r); cbn [fst app]; now rewrite IH.
Qed.

Lemma validate_dict_items_errors (items : list (string * Raw)) :
  snd (validate_dict_items v items)
  = flat_map (fun kv => map (with_outer_location (LKey (fst kv)))
                            (errors_of (v (snd kv)))) items.
Proof.
  induction items as [|[k r] rest IH]; [reflexivity|].
  cbn [validate_dict_items flat_map fst snd].
  destruct (validate_dict_items v rest) as [o errs]; cbn [snd] in IH.
  destruct (v r); cbn [snd errors_of map app]; now rewrite IH.
Qed.

Lemma validate_dict_items_all_ok (items : list (string * Raw))
    (out : list (string * T)) :
  (forall k r errs, In (k, r) items -> v r = ValidationError errs -> errs <> []) ->
  validate_dict_items v items = (out, []) ->
  map fst out = map fst items
  /\ Forall2 (fun kv kb => fst kv = fst kb /\ v (snd kv) = Ok (snd kb)) items out.
Proof.
  revert out; induction items as [|[k r] rest IH]; intros out Hne.
  - intros [= <-]; split; [reflexivity | constructor].
  - cbn [validate_dict_items].
    destruct (validate_dict_items v rest) as [o errs] eqn:Hrest.
    destruct (v r) as [b|line_errors] eqn:Hr.
    + intros [= <- ->].
      destruct (IH o) as [Hk Hall]; [|reflexivity|].
      { intros k' r' e' Hin; apply (Hne k'); now right. }
      split; [cbn; now rewrite Hk | constructor; auto].
    + intros [= <- H]. apply app_eq_nil in H as [H _].
      apply map_eq_nil in H.
      exfalso; apply (Hne k r line_errors); [now left | exact Hr | exact H].
Qed.

End ContainerFacts.

(** *** A failed validation has at least one line error *)

Lemma constructed_never_silent (made : option Decimal) (input : Raw)
    (errs : list LineError) :
  match constructed made input with
  | Ok d => if is_finite d then Ok d
            else ValidationError [error FiniteNumber input]
  | ValidationError e => ValidationError e
  end = ValidationError errs -> errs <> [].
Proof.
  destruct made as [d|]; cbn; [destruct (is_finite d)|];
    try discriminate; intros [= <-]; discriminate.
Qed.

Lemma decimal_validator_never_silent : never_silent decimal_validator.
Proof.
  intros input errs; unfold decimal_validator, validate_decimal, create_decimal.
  destruct input as [| |z|repr|s|d| | |];
    try apply constructed_never_silent;
    try (cbn; intros [= <-]; discriminate).
  destruct (in_range d); [destruct (is_finite d)|];
    try discriminate; intros [= <-]; discriminate.
Qed.

Lemma validate_field_never_silent {T : Type} (v : Raw -> ValResult T)
    (name : string) (items : list (string * Raw)) (errs : list LineError) :
  never_silent v ->
  validate_field v name items = ValidationError errs -> errs <> [].
Proof.
  intros Hv; unfold validate_field.
  destruct (dict_get name items) as [value|]; [|intros [= <-]; discriminate].
  destruct (v value) as [x|line_errors] eqn:Hx; [discriminate|].
  intros [= <-] H; apply map_eq_nil in H. exact (Hv _ _ Hx H).
Qed.

Lemma model_fields_never_silent {A B M : Type}
    (name1 : string) (v1 : Raw -> ValResult A)
    (name2 : string) (v2 : Raw -> ValResult B) (build : A -> B -> M) :
  never_silent v1 -> never_silent v2 ->
  never_silent (model_fields_validator name1 v1 name2 v2 build).
Proof.
  intros H1 H2 input errs; unfold model_fields_validator.
  destruct input; try (intros [= <-]; discriminate).
  destruct (validate_field v1 name1 items) as [a|e1] eqn:E1;
    destruct (validate_field v2 name2 items) as [b|e2] eqn:E2;
    try discriminate; intros [= <-]; cbn [errors_of app].
  - exact (validate_field_never_silent v2 name2 items _ H2 E2).
  - rewrite List.app_nil_r.
    exact (validate_field_never_silent v1 name1 items _ H1 E1).
  - intros H; apply app_eq_nil in H as [H _]; revert H.
    exact (validate_field_never_silent v1 name1 items _ H1 E1).
Qed.

Lemma OrderBookEntry_validator_never_silent :
  never_silent OrderBookEntry_validator.
Proof.
  intros input errs; unfold OrderBookEntry_validator.
  apply model_fields_never_silent; apply decimal_validator_never_silent.
Qed.

Lemma OrderBook_validator_never_silent : never_silent OrderBook_validator.
Proof.
  apply model_fields_never_silent;
    intros input errs; apply list_validator_errors_nonempty.
Qed.

(** *** The two models *)

Lemma entry_of_pair_mapping (p q : Raw) :
  OrderBookEntry_validator (RDict [("price", p); ("quantity", q)])
  = OrderBookEntry_validator (RList [p; q]).
Proof. now apply entry_of_mapping. Qed.

Lemma book_of_mapping (items : list (string * Raw)) (b a : Raw) :
  dict_get "bids" items = Some b -> dict_get "asks" items = Some a ->
  OrderBook_validator (RDict items)
  = OrderBook_validator (RDict [("bids", b); ("asks", a)]).
Proof.
  intros Hb Ha.
  unfold OrderBook_validator, model_fields_validator, validate_field.
  cbn [dict_get String.eqb Ascii.eqb Bool.eqb].
  now rewrite Hb, Ha.
Qed.

Lemma book_of_lists (raw_bids raw_asks : list Raw)
    (bs als : list OrderBookEntry) :
  Forall2 (fun r e => OrderBookEntry_validator r = Ok e) raw_bids bs ->
  Forall2 (fun r e => OrderBookEntry_validator r = Ok e) raw_asks als ->
  OrderBook_validator (RDict [("bids", RList raw_bids); ("asks", RList raw_asks)])
  = Ok (mkOrderBook bs als).
Proof.
  intros Hb Ha.
  unfold OrderBook_validator, model_fields_validator, validate_field.
  cbn [dict_get String.eqb Ascii.eqb Bool.eqb].
  destruct (list_validator_ok OrderBookEntry_validator _ _ Hb) as [-> _].
  destruct (list_validator_ok OrderBookEntry_validator _ _ Ha) as [-> _].
  reflexivity.
Qed.

(* ================================================================== *)
(** ** The repository's tests, replayed *)
(* ================================================================== *)

(** [test_order_book_entry_variants]: strings, an [int] with a [float],
    a tuple, a mapping. *)
Example test_entry_strings :
  OrderBookEntry_model_validate (RList [RStr "50000.0"; RStr "0.1"])
  = Ok (mkOrderBookEntry (Finite false 500000 (-1)) (Finite false 1 (-1))).
Proof. reflexivity. Qed.

Example test_entry_int_and_float :
  OrderBookEntry_model_validate (RList [RInt 50000; RFloat "0.1"])
  = Ok (mkOrderBookEntry (Finite false 50000 0) (Finite false 1 (-1))).
Proof. reflexivity. Qed.

Example test_entry_tuple :
  OrderBookEntry_model_validate (RTuple [RStr "60000.0"; RStr "0.2"])
  = Ok (mkOrderBookEntry (Finite false 600000 (-1)) (Finite false 2 (-1))).
Proof. reflexivity. Qed.

Example test_entry_mapping :
  OrderBookEntry_model_validate
    (RDict [("price", RStr "60000.0"); ("quantity", RStr "0.2")])
  = Ok (mkOrderBookEntry (Finite false 600000 (-1)) (Finite false 2 (-1))).
Proof. reflexivity. Qed.

(** [test_order_book_entry_invalid_variants]: one error each time. *)
Example test_entry_invalid_one_element :
  OrderBookEntry_model_validate (RList [RStr "50000.0"])
  = ValidationError [mkLineError ModelType [] (RList [RStr "50000.0"])].
Proof. reflexivity. Qed.

Example test_entry_invalid_scalar :
  OrderBookEntry_model_validate (RInt 12345)
  = ValidationError [mkLineError ModelType [] (RInt 12345)].
Proof. reflexivity. Qed.

Example test_entry_invalid_missing_quantity :
  OrderBookEntry_model_validate (RDict [("price", RStr "50000.0")])
  = ValidationError
      [mkLineError Missing [LKey "quantity"] (RDict [("price", RStr "50000.0")])].
Proof. reflexivity. Qed.

(** [test_order_book_entry_json]: the compact text of an entry. *)
Example test_entry_dump_json :
  OrderBookEntry_model_dump_json
    (mkOrderBookEntry (Finite false 800000 (-1)) (Finite false 4 (-1)))
  = "{" ++ Json.write_string "price" ++ ":" ++ Json.write_string "80000.0"
    ++ "," ++ Json.write_string "quantity" ++ ":" ++ Json.write_string "0.4"
    ++ "}".
Proof. reflexivity. Qed.

(** A trailing zero is part of the value: the two texts give decimals
    that differ, and each is written back as it was read. *)
Example trailing_zero_kept :
  of_str "50000.0" = Some (Finite false 500000 (-1))
  /\ of_str "50000" = Some (Finite false 50000 0)
  /\ to_str (Finite false 500000 (-1)) = "50000.0"
  /\ to_str (Finite false 50000 0) = "50000".
Proof. repeat split. Qed.

(** [Decimal.__str__] on small and large exponents. *)
Example to_str_scientific :
  to_str (Finite true 1 (-7)) = "-1E-7"
  /\ to_str (Finite false 1 (-6)) = "0.000001"
  /\ to_str (Finite false 123 3) = "1.23E+5"
  /\ to_str (Finite false 0 (-2)) = "0.00".
Proof. repeat split. Qed.

(** *** The digits of a numeral, read twice *)

Lemma uint_of_digits (s : string) :
  str_all is_digit s = true ->
  exists u, NilEmpty.uint_of_string s = Some u
            /\ NilEmpty.string_of_uint u = s.
Proof.
  induction s as [|c r IH]; simpl; [exists Decimal.Nil; auto|].
  intros H; apply andb_true_iff in H as [Hc Hr].
  destruct (IH Hr) as (u & -> & <-).
  destruct c as [[] [] [] [] [] [] [] []]; try discriminate Hc;
    eexists; split; reflexivity.
Qed.

Lemma written_number_digits (s : string) :
  str_all is_digit s = true -> written_number s = int_of_digits s.
Proof.
  intros H; destruct (uint_of_digits s H) as (u & Hu & Hs).
  unfold written_number; rewrite Hu, <- Hs.
  unfold int_of_digits.
  rewrite int_of_digits_acc_uint, N.mul_0_l, N.add_0_l.
  now rewrite <- Unsigned.of_uint_alt.
Qed.

Lemma numeral_denotation_value (n : Numeral) :
  well_formed n = true -> numeral_denotation n = numeral_value n.
Proof.
  destruct n as [sg ip fo eo].
  unfold well_formed, numeral_denotation, numeral_value, written_exponent,
    exp_value, frac_digits; cbn [num_sign num_int num_frac num_exp].
  intros H.
  repeat match goal with
    | H : _ && _ = true |- _ => apply andb_true_iff in H as [? ?]
    end.
  rewrite written_number_digits
    by (rewrite str_all_append; apply andb_true_iff; split; assumption).
  destruct eo as [[[letter m] ds]|]; [|reflexivity].
  repeat match goal with
    | H : _ && _ = true |- _ => apply andb_true_iff in H as [? ?]
    end.
  now rewrite (written_number_digits ds).
Qed.

Lemma decimal_validator_exact_input (input : Raw) (d : Decimal) :
  exact_input input d -> decimal_validator input = Ok d.
Proof.
  intros [n Hwf Hr|z Hr]; apply decimal_validator_denotes.
  - rewrite (numeral_denotation_value n Hwf) in *.
    apply denotes_str; auto.
    apply strip_remove_plain, numeral_text_plain, Hwf.
  - now constructor.
Qed.

Lemma decimal_validator_numeric_input (input : Raw) (d : Decimal) :
  numeric_input input d -> decimal_validator input = Ok d.
Proof.
  intros [i d' H|n Hwf Hr]; [now apply decimal_validator_exact_input|].
  apply decimal_validator_denotes.
  rewrite (numeral_denotation_value n Hwf) in *.
  apply denotes_float; auto.
  apply strip_remove_plain, numeral_text_plain, Hwf.
Qed.

Lemma entry_of_valid_pair (p q : Raw) (dp dq : Decimal) :
  decimal_validator p = Ok dp -> decimal_validator q = Ok dq ->
  OrderBookEntry_validator (RList [p; q]) = Ok (mkOrderBookEntry dp dq).
Proof. intros Hp Hq; now rewrite entry_of_pair, Hp, Hq. Qed.

(** *** JSON text: integer tokens and arrays *)

Section JsonArrayFacts.
Import Json.

Local Ltac ascii_cases c := destruct c as [[] [] [] [] [] [] [] []].

Lemma str_of_N_no_leading_zero (n : N) : leading_zero (str_of_N n) = false.
Proof.
  unfold str_of_N.
  pose proof (DecimalN.Unsigned.to_of (N.to_uint n)) as H.
  rewrite DecimalN.Unsigned.of_to in H.
  revert H; generalize (N.to_uint n); intros u Hu.
  rewrite Hu; unfold Decimal.unorm.
  destruct (Decimal.nzhead u) eqn:Hz; try reflexivity.
  exfalso. clear Hu.
  induction u; simpl in Hz; try discriminate; auto.
Qed.

Lemma read_number_int (z : Z) (c : ascii) (rest : string) :
  closes c ->
  read_number (str_of_Z z ++ String c rest) = Some (RInt z, String c rest).
Proof.
  intros Hc.
  assert (Hrest : stops_digits (String c rest) = true
                  /\ read_fraction (String c rest) = Some (EmptyString, String c rest)
                  /\ read_exponent (String c rest) = Some (None, String c rest))
    by (destruct Hc as [-> | ->]; repeat split; reflexivity).
  destruct Hrest as (Hstop & Hfrac & Hexp).
  pose proof (str_of_N_digits (Z.abs_N z)) as Hd.
  pose proof (str_of_N_nonempty (Z.abs_N z)) as Hne.
  pose proof (str_of_N_no_leading_zero (Z.abs_N z)) as Hlz.
  pose proof (int_of_str_of_N (Z.abs_N z)) as Hv.
  unfold read_number, str_of_Z.
  destruct (z <? 0) eqn:Hz.
  - cbn [append split_minus].
    rewrite (span_digits_append _ _ Hd Hstop).
    destruct (str_of_N (Z.abs_N z)) as [|d ds] eqn:E; [congruence|].
    rewrite Hlz, Hfrac, Hexp, Hv.
    apply Z.ltb_lt in Hz. repeat f_equal. lia.
  - cbn [append].
    assert (Hs : split_minus (str_of_N (Z.abs_N z) ++ String c rest)
                 = (false, str_of_N (Z.abs_N z) ++ String c rest)).
    { destruct (str_of_N (Z.abs_N z)) as [|d ds]; [congruence|].
      cbn [str_all] in Hd; apply andb_true_iff in Hd as [Hd _].
      cbn [append]. revert Hd; ascii_cases d; try discriminate; reflexivity. }
    rewrite Hs, (span_digits_append _ _ Hd Hstop).
    destruct (str_of_N (Z.abs_N z)) as [|d ds] eqn:E; [congruence|].
    rewrite Hlz, Hfrac, Hexp, Hv.
    apply Z.ltb_ge in Hz. repeat f_equal. lia.
Qed.

(** The first character of a token: no white space, and nothing the
    reader takes for something else than a number. *)
Lemma read_value_number (f : nat) (c : ascii) (r : string) :
  is_digit c = true \/ c = "-"%char ->
  read_value (S f) (String c r) = read_number (String c r)
  /\ skip_ws (String c r) = String c r
  /\ c <> "]"%char.
Proof.
  intros [H | ->]; [|repeat split; discriminate].
  revert H; ascii_cases c; try discriminate; intros _;
    repeat split; discriminate.
Qed.

Lemma str_of_Z_head (z : Z) :
  exists c r, str_of_Z z = String c r /\ (is_digit c = true \/ c = "-"%char).
Proof.
  unfold str_of_Z; destruct (z <? 0).
  - eexists _, _; split; [reflexivity | now right].
  - pose proof (str_of_N_digits (Z.abs_N z)) as Hd.
    pose proof (str_of_N_nonempty (Z.abs_N z)) as Hne.
    destruct (str_of_N (Z.abs_N z)) as [|d ds]; [congruence|].
    cbn [str_all] in Hd; apply andb_true_iff in Hd as [Hd _].
    exists d, ds; split; [reflexivity | now left].
Qed.

(** An input that writes its number out is read back from its JSON
    text as it is. *)
Lemma read_value_exact_input (input : Raw) (d : Decimal) (f : nat)
    (c : ascii) (rest : string) :
  exact_input input d -> closes c ->
  read_value (S f) (json_text input ++ String c rest)
  = Some (input, String c rest)
  /\ exists c0 r0, json_text input ++ String c rest = String c0 r0
                   /\ skip_ws (String c0 r0) = String c0 r0
                   /\ c0 <> "]"%char.
Proof.
  intros [n Hwf Hr|z Hr] Hc; cbn [json_text].
  - split; [apply read_value_string|].
    unfold write_string. eexists _, _; split; [reflexivity|].
    split; [reflexivity | discriminate].
  - destruct (str_of_Z_head z) as (c0 & r0 & E & Hhead).
    pose proof (read_number_int z c rest Hc) as Hn.
    rewrite E in *. cbn [append] in *.
    destruct (read_value_number f c0 (r0 ++ String c rest) Hhead)
      as (Hv & Hs & Hb).
    split; [now rewrite Hv|].
    eexists _, _; split; [reflexivity|]. now split.
Qed.

Lemma read_value_array2 (f : nat) (p q : Raw) (dp dq : Decimal) :
  exact_input p dp -> exact_input q dq ->
  read_value (S (S (S (S f))))
    ("[" ++ json_text p ++ "," ++ json_text q ++ "]")
  = Some (RList [p; q], EmptyString).
Proof.
  intros Hp Hq.
  destruct (read_value_exact_input p dp (S f) "," (json_text q ++ "]") Hp)
    as (Hrp & c0 & r0 & E0 & Hs0 & Hb0); [now left|].
  destruct (read_value_exact_input q dq f "]" EmptyString Hq)
    as (Hrq & _); [now right|].
  change ("," ++ json_text q ++ "]") with (String "," (json_text q ++ "]")).
  change (read_value (S (S (S (S f)))) ("[" ++ ?x))
    with (match skip_ws x with
          | String "]" r' => Some (RList [], r')
          | _ => read_elements (S (S (S f))) [] x
          end).
  transitivity (read_elements (S (S (S f))) []
                  (json_text p ++ String "," (json_text q ++ "]"))).
  { rewrite E0, Hs0. destruct c0 as [[] [] [] [] [] [] [] []]; try reflexivity.
    now destruct Hb0. }
  cbn [read_elements]. rewrite Hrp.
  change (skip_ws (String "," ?x)) with (String "," x). cbv iota.
  cbn [read_elements].
  change (json_text q ++ String "]" EmptyString) with (json_text q ++ "]") in Hrq.
  rewrite Hrq. reflexivity.
Qed.

Lemma loads_array2 (p q : Raw) (dp dq : Decimal) :
  exact_input p dp -> exact_input q dq ->
  Json.loads ("[" ++ json_text p ++ "," ++ json_text q ++ "]")
  = Some (RList [p; q]).
Proof.
  intros Hp Hq; unfold loads.
  assert (Hlen : (2 <= String.length
                         ("[" ++ json_text p ++ "," ++ json_text q ++ "]"))%nat).
  { cbn [append String.length]. rewrite length_append. cbn. lia. }
  destruct (2 * String.length _ + 1)%nat as [|[|[|[|f]]]] eqn:E; try lia.
  now rewrite (read_value_array2 f p q dp dq Hp Hq).
Qed.

End JsonArrayFacts.

(* ================================================================== *)
(** ** The claims *)
(* ================================================================== *)

(** C1 -- round trip.  For every valid entry [e], that is every entry some
    input validates to, parsing the compact JSON serialization of [e]
    yields [e] again.  Equality is that of sign, coefficient and
    exponent, so the digits written, trailing zeros included, come back
    as they were: ["50000.0"] does not come back as ["50000"]. *)
Theorem C1_entry_json_round_trip (data : Raw) (e : OrderBookEntry) :
  OrderBookEntry_model_validate data = Ok e ->
  OrderBookEntry_model_validate_json (OrderBookEntry_model_dump_json e) = Ok e.
Proof.
  intros H.
  destruct (validated_entry_finite _ _ H) as [Hp Hq].
  destruct (validated_entry_in_range _ _ H) as [Rp Rq].
  unfold OrderBookEntry_model_validate_json, validate_json.
  rewrite loads_dump_json.
  rewrite (entry_of_pair_mapping (RStr (to_str (price e)))
             (RStr (to_str (quantity e)))), entry_of_pair.
  rewrite (decimal_validator_to_str _ Hp Rp), (decimal_validator_to_str _ Hq Rq).
  now destruct e.
Qed.

Lemma C1_entry_json_round_trip_witness :
  OrderBookEntry_model_validate (RList [RStr "50000.0"; RStr "0.1"])
  = Ok (mkOrderBookEntry (Finite false 500000 (-1)) (Finite false 1 (-1)))
  /\ OrderBookEntry_model_validate_json
       (OrderBookEntry_model_dump_json
          (mkOrderBookEntry (Finite false 500000 (-1)) (Finite false 1 (-1))))
     = Ok (mkOrderBookEntry (Finite false 500000 (-1)) (Finite false 1 (-1))).
Proof.
  split; [reflexivity|].
  apply (C1_entry_json_round_trip (RList [RStr "50000.0"; RStr "0.1"])).
  reflexivity.
Defined.

(** C2 -- the mapping form and the sequence form give the same entry.
    For all numeric values [p] and [q] (numeric strings, integers,
    floats), writing the decimals [dp] and [dq], the mapping of [p] under
    [price] and [q] under [quantity], its keys in either order, the list
    [[p, q]] and the tuple [(p, q)] are all accepted, and they all give
    the entry with price [dp] and quantity [dq]. *)
Theorem C2_mapping_and_sequence_same_entry (p q : Raw) (dp dq : Decimal) :
  numeric_input p dp -> numeric_input q dq ->
  OrderBookEntry_model_validate (RDict [("price", p); ("quantity", q)])
  = Ok (mkOrderBookEntry dp dq)
  /\ OrderBookEntry_model_validate (RList [p; q])
     = Ok (mkOrderBookEntry dp dq)
  /\ OrderBookEntry_model_validate (RDict [("quantity", q); ("price", p)])
     = Ok (mkOrderBookEntry dp dq)
  /\ OrderBookEntry_model_validate (RTuple [p; q])
     = Ok (mkOrderBookEntry dp dq).
Proof.
  intros Hp Hq.
  apply decimal_validator_numeric_input in Hp, Hq.
  pose proof (entry_of_valid_pair p q dp dq Hp Hq) as H.
  unfold OrderBookEntry_model_validate; repeat split.
  - now rewrite entry_of_pair_mapping.
  - exact H.
  - rewrite (entry_of_mapping _ p q) by reflexivity. exact H.
  - exact H.
Qed.

Lemma C2_mapping_and_sequence_same_entry_witness :
  (numeric_input (RStr "50000.0") (Finite false 500000 (-1))
   /\ numeric_input (RInt 3) (Finite false 3 0))
  /\ OrderBookEntry_model_validate
       (RDict [("price", RStr "50000.0"); ("quantity", RInt 3)])
     = Ok (mkOrderBookEntry (Finite false 500000 (-1)) (Finite false 3 0))
  /\ OrderBookEntry_model_validate (RList [RStr "50000.0"; RInt 3])
     = Ok (mkOrderBookEntry (Finite false 500000 (-1)) (Finite false 3 0)).
Proof.
  assert (Hp : numeric_input (RStr "50000.0") (Finite false 500000 (-1))).
  { apply numeric_exact.
    exact (exact_string (mkNumeral NoSign "50000" (Some "0") None)
             eq_refl eq_refl). }
  assert (Hq : numeric_input (RInt 3) (Finite false 3 0)).
  { apply numeric_exact. exact (exact_int 3 eq_refl). }
  split; [split; assumption|].
  destruct (C2_mapping_and_sequence_same_entry _ _ _ _ Hp Hq)
    as (H1 & H2 & _).
  split; assumption.
Defined.




(** C4 -- the book assembler.  For every raw book whose [bids] list has
    [n] elements and whose [asks] list has [m], each of them validating
    to an entry, validation succeeds; the book has exactly [n] bids and
    [m] asks, in the order of the input, each the entry its raw element
    validates to. *)
Theorem C4_book_assembler (items : list (string * Raw))
    (raw_bids raw_asks : list Raw) (bs als : list OrderBookEntry) :
  dict_get "bids" items = Some (RList raw_bids) ->
  dict_get "asks" items = Some (RList raw_asks) ->
  Forall2 (fun r e => OrderBookEntry_model_validate r = Ok e) raw_bids bs ->
  Forall2 (fun r e => OrderBookEntry_model_validate r = Ok e) raw_asks als ->
  OrderBook_model_validate (RDict items) = Ok (mkOrderBook bs als)
  /\ List.length bs = List.length raw_bids
  /\ List.length als = List.length raw_asks.
Proof.
  intros Hb Ha Hbs Has; unfold OrderBook_model_validate.
  rewrite (book_of_mapping items _ _ Hb Ha), (book_of_lists _ _ _ _ Hbs Has).
  repeat split; symmetry; eapply Forall2_length; eassumption.
Qed.

Lemma C4_book_assembler_witness :
  OrderBook_model_validate
    (RDict [("lastUpdate", RInt 1644991756704);
            ("asks", RList [RList [RStr "1476091000"; RStr "1.016"];
                            RList [RStr "1479700000"; RStr "0.2561"]]);
            ("bids", RList [RList [RStr "1470001120"; RStr "0.126571"]])])
  = Ok (mkOrderBook
          [mkOrderBookEntry (Finite false 1470001120 0) (Finite false 126571 (-6))]
          [mkOrderBookEntry (Finite false 1476091000 0) (Finite false 1016 (-3));
           mkOrderBookEntry (Finite false 1479700000 0) (Finite false 2561 (-4))])
  /\ List.length
       [mkOrderBookEntry (Finite false 1470001120 0) (Finite false 126571 (-6))]
     = 1%nat
  /\ List.length
       [mkOrderBookEntry (Finite false 1476091000 0) (Finite false 1016 (-3));
        mkOrderBookEntry (Finite false 1479700000 0) (Finite false 2561 (-4))]
     = 2%nat.
Proof.
  apply (C4_book_assembler
           [("lastUpdate", RInt 1644991756704);
            ("asks", RList [RList [RStr "1476091000"; RStr "1.016"];
                            RList [RStr "1479700000"; RStr "0.2561"]]);
            ("bids", RList [RList [RStr "1470001120"; RStr "0.126571"]])]
           [RList [RStr "1470001120"; RStr "0.126571"]]
           [RList [RStr "1476091000"; RStr "1.016"];
            RList [RStr "1479700000"; RStr "0.2561"]]).
  - reflexivity.
  - reflexivity.
  - repeat constructor.
  - repeat constructor.
Defined.

(** C5 -- the keyed collection is all or nothing.  For every raw snapshot,
    either validation returns a mapping with the keys of the input, in
    order, each mapped to the book its value validates to; or it fails,
    and then the errors are not empty, every error starts its location
    with the key of a book that fails, and every book that fails has an
    error under its key.  There is no third outcome. *)
Theorem C5_keyed_collection_all_or_nothing (items : list (string * Raw)) :
  match all_order_books_T_validate_python (RDict items) with
  | Ok books =>
      map fst books = map fst items
      /\ Forall2 (fun kv kb => fst kv = fst kb
                               /\ OrderBook_model_validate (snd kv) = Ok (snd kb))
                 items books
  | ValidationError errs =>
      errs <> []
      /\ (forall e, In e errs ->
            exists key value inner rest,
              In (key, value) items
              /\ OrderBook_model_validate value = ValidationError inner
              /\ loc e = LKey key :: rest)
      /\ (forall key value inner,
            In (key, value) items ->
            OrderBook_model_validate value = ValidationError inner ->
            exists e rest, In e errs /\ loc e = LKey key :: rest)
  end.
Proof.
  unfold all_order_books_T_validate_python, all_order_books_T,
    OrderBook_model_validate, dict_validator.
  pose proof (validate_dict_items_errors OrderBook_validator items) as Herrs.
  destruct (validate_dict_items OrderBook_validator items) as [out errs] eqn:Hv.
  cbn [snd] in Herrs.
  destruct errs as [|e0 errs].
  - apply validate_dict_items_all_ok; [|exact Hv].
    intros k r errs _; apply OrderBook_validator_never_silent.
  - split; [discriminate|]. rewrite Herrs; split.
    + intros e He. apply in_flat_map in He as ([key value] & Hin & He).
      cbn [fst snd] in He. apply in_map_iff in He as (e' & <- & He').
      destruct (OrderBook_validator value) as [b|inner] eqn:Hb;
        [destruct He'|].
      exists key, value, inner, (loc e'); auto.
    + intros key value inner Hin Hb.
      pose proof (OrderBook_validator_never_silent _ _ Hb) as Hne.
      destruct inner as [|e' inner]; [congruence|].
      exists (with_outer_location (LKey key) e'), (loc e'); split; [|reflexivity].
      apply in_flat_map. exists (key, value); split; [exact Hin|].
      cbn [fst snd]. rewrite Hb. now left.
Qed.

(** C6, as stated, does not hold: a mapping with a key beyond [price]
    and [quantity] is accepted. *)
Lemma C6_extra_key_accepted :
  ~ (forall items : list (string * Raw),
       (exists key, In key (map fst items)
                    /\ key <> "price" /\ key <> "quantity")
       \/ dict_get "price" items = None
       \/ dict_get "quantity" items = None ->
       exists errs,
         OrderBookEntry_model_validate (RDict items) = ValidationError errs).
Proof.
  intros H.
  destruct (H [("price", RStr "50000.0"); ("quantity", RStr "0.1");
               ("extra", RStr "x")]) as [errs Herrs].
  - left; exists "extra"; repeat split; [cbn; auto | discriminate | discriminate].
  - discriminate Herrs.
Qed.

(** C6, amended -- a mapping that lacks [price] or [quantity] fails, with
    a [missing] error located at the absent field; a mapping that has
    both is validated on the values under these two keys alone, whatever
    other keys it has. *)
Theorem C6_mapping_keys (items : list (string * Raw)) :
  match dict_get "price" items, dict_get "quantity" items with
  | Some p, Some q =>
      OrderBookEntry_model_validate (RDict items)
      = OrderBookEntry_model_validate (RDict [("price", p); ("quantity", q)])
  | None, Some _ =>
      exists errs,
        OrderBookEntry_model_validate (RDict items) = ValidationError errs
        /\ In (mkLineError Missing [LKey "price"] (RDict items)) errs
  | Some _, None =>
      exists errs,
        OrderBookEntry_model_validate (RDict items) = ValidationError errs
        /\ In (mkLineError Missing [LKey "quantity"] (RDict items)) errs
  | None, None =>
      OrderBookEntry_model_validate (RDict items)
      = ValidationError [mkLineError Missing [LKey "price"] (RDict items);
                         mkLineError Missing [LKey "quantity"] (RDict items)]
  end.
Proof.
  unfold OrderBookEntry_model_validate.
  destruct (dict_get "price" items) as [p|] eqn:Hp;
    destruct (dict_get "quantity" items) as [q|] eqn:Hq.
  - rewrite (entry_of_mapping items p q Hp Hq). symmetry.
    apply entry_of_pair_mapping.
  - unfold OrderBookEntry_validator, parse_list, model_fields_validator,
      validate_field. rewrite Hp, Hq.
    destruct (decimal_validator p) as [d|errs]; eexists; split;
      try reflexivity.
    + now left.
    + apply in_or_app; right; now left.
  - unfold OrderBookEntry_validator, parse_list, model_fields_validator,
      validate_field. rewrite Hp, Hq.
    destruct (decimal_validator q) as [d|errs]; eexists; split;
      try reflexivity; now left.
  - unfold OrderBookEntry_validator, parse_list, model_fields_validator,
      validate_field. now rewrite Hp, Hq.
Qed.

(** C7, as stated, does not hold: for a sequence of one element the one
    error is not located at a field. *)
Lemma C7_error_not_at_a_field :
  ~ (forall items : list Raw,
       List.length items <> 2%nat ->
       exists e,
         OrderBookEntry_model_validate (RList items) = ValidationError [e]
         /\ exists field, loc e = [LKey field]).
Proof.
  intros H.
  destruct (H [RStr "50000.0"]) as (e & He & field & Hloc).
  - discriminate.
  - injection He as <-. discriminate Hloc.
Qed.

(** C7, amended -- for every list or tuple whose length is not two,
    validation fails with exactly one error: the model-type error on the
    whole input, at the root location (the input is not a mapping). *)
Theorem C7_wrong_length_one_error (items : list Raw) :
  List.length items <> 2%nat ->
  OrderBookEntry_model_validate (RList items)
  = ValidationError [mkLineError ModelType [] (RList items)]
  /\ OrderBookEntry_model_validate (RTuple items)
     = ValidationError [mkLineError ModelType [] (RTuple items)].
Proof. apply entry_of_sequence. Qed.

Lemma C7_wrong_length_one_error_witness :
  List.length [RStr "50000.0"; RStr "0.1"; RStr "extra"] <> 2%nat
  /\ OrderBookEntry_model_validate
       (RList [RStr "50000.0"; RStr "0.1"; RStr "extra"])
     = ValidationError
         [mkLineError ModelType []
            (RList [RStr "50000.0"; RStr "0.1"; RStr "extra"])].
Proof.
  assert (H : List.length [RStr "50000.0"; RStr "0.1"; RStr "extra"] <> 2%nat)
    by discriminate.
  split; [exact H|].
  exact (proj1 (C7_wrong_length_one_error
                  [RStr "50000.0"; RStr "0.1"; RStr "extra"] H)).
Defined.

(** C8 -- extra top-level keys of a raw book are ignored.  For every raw
    book that has [bids] and [asks], whatever other keys it has, if the
    mapping of just these two validates to a book then the whole input
    validates, to the same book; in any case the two results are equal. *)
Theorem C8_book_extra_keys_ignored (items : list (string * Raw))
    (raw_bids raw_asks : Raw) (book : OrderBook) :
  dict_get "bids" items = Some raw_bids ->
  dict_get "asks" items = Some raw_asks ->
  OrderBook_model_validate (RDict [("bids", raw_bids); ("asks", raw_asks)])
  = Ok book ->
  OrderBook_model_validate (RDict items) = Ok book
  /\ OrderBook_model_validate (RDict items)
     = OrderBook_model_validate (RDict [("bids", raw_bids); ("asks", raw_asks)]).
Proof.
  intros Hb Ha Hok; unfold OrderBook_model_validate in *.
  rewrite (book_of_mapping items _ _ Hb Ha). now split.
Qed.

Lemma C8_book_extra_keys_ignored_witness :
  OrderBook_model_validate
    (RDict [("status", RStr "ok"); ("lastUpdate", RInt 1644991756704);
            ("lastTradePrice", RStr "35650565900");
            ("asks", RList [RList [RStr "1476091000"; RStr "1.016"]]);
            ("bids", RList [])])
  = Ok (mkOrderBook []
          [mkOrderBookEntry (Finite false 1476091000 0) (Finite false 1016 (-3))]).
Proof.
  apply (C8_book_extra_keys_ignored
           [("status", RStr "ok"); ("lastUpdate", RInt 1644991756704);
            ("lastTradePrice", RStr "35650565900");
            ("asks", RList [RList [RStr "1476091000"; RStr "1.016"]]);
            ("bids", RList [])]
           (RList [])
           (RList [RList [RStr "1476091000"; RStr "1.016"]])).
  - reflexivity.
  - reflexivity.
  - reflexivity.
Defined.

(** C9 -- no sign or range constraint.  For every input whose price and
    quantity convert to finite decimals, zero and negative ones included,
    validation succeeds and the entry carries these decimals unchanged. *)
Theorem C9_no_sign_or_range_constraint (p q : Raw) (dp dq : Decimal) :
  validate_decimal p = Ok dp -> is_finite dp = true ->
  validate_decimal q = Ok dq -> is_finite dq = true ->
  OrderBookEntry_model_validate (RList [p; q]) = Ok (mkOrderBookEntry dp dq)
  /\ OrderBookEntry_model_validate (RDict [("price", p); ("quantity", q)])
     = Ok (mkOrderBookEntry dp dq).
Proof.
  intros Hp Hfp Hq Hfq; unfold OrderBookEntry_model_validate.
  rewrite entry_of_pair_mapping, entry_of_pair.
  unfold decimal_validator; now rewrite Hp, Hfp, Hq, Hfq.
Qed.

Lemma C9_no_sign_or_range_constraint_witness :
  OrderBookEntry_model_validate (RList [RStr "-50000.0"; RInt 0])
  = Ok (mkOrderBookEntry (Finite true 500000 (-1)) (Finite false 0 0))
  /\ OrderBookEntry_model_validate
       (RDict [("price", RStr "-50000.0"); ("quantity", RInt 0)])
     = Ok (mkOrderBookEntry (Finite true 500000 (-1)) (Finite false 0 0)).
Proof.
  apply (C9_no_sign_or_range_constraint (RStr "-50000.0") (RInt 0));
    reflexivity.
Defined.

(** C10 -- the empty snapshot.  Validating the empty mapping with the
    keyed collection validator succeeds with the empty mapping, from a
    Python value and from JSON text alike. *)
Theorem C10_empty_snapshot :
  all_order_books_T_validate_python (RDict []) = Ok []
  /\ all_order_books_T_validate_json "{}" = Ok [].
Proof. split; reflexivity. Qed.

(* ================================================================== *)
(** ** Further properties of the schema *)
(* ================================================================== *)

Lemma decimal_validator_cases (input : Raw) :
  (exists d, decimal_validator input = Ok d /\ is_finite d = true)
  \/ (exists ty,
        decimal_validator input = ValidationError [mkLineError ty [] input]
        /\ (ty = DecimalType \/ ty = DecimalParsing \/ ty = FiniteNumber)).
Proof.
  assert (Hc : forall made,
             (exists d, match constructed made input with
                        | Ok d => if is_finite d then Ok d
                                  else ValidationError [error FiniteNumber input]
                        | ValidationError e => ValidationError e
                        end = Ok d /\ is_finite d = true)
             \/ (exists ty,
                   match constructed made input with
                   | Ok d => if is_finite d then Ok d
                             else ValidationError [error FiniteNumber input]
                   | ValidationError e => ValidationError e
                   end = ValidationError [mkLineError ty [] input]
                   /\ (ty = DecimalType \/ ty = DecimalParsing
                       \/ ty = FiniteNumber))).
  { intros [d|]; cbn; [destruct (is_finite d) eqn:Hf|].
    - left; exists d; auto.
    - right; exists FiniteNumber; auto.
    - right; exists DecimalParsing; auto. }
  unfold decimal_validator, validate_decimal, create_decimal.
  destruct input as [| |z|repr|s|d| | |]; try apply Hc;
    try (right; exists DecimalType; split; [reflexivity | auto]).
  destruct (in_range d); [destruct (is_finite d) eqn:Hf|].
  - left; exists d; auto.
  - right; exists FiniteNumber; auto.
  - right; exists DecimalType; auto.
Qed.

Lemma parse_list_shape (data : Raw) :
  if entry_shape data
  then exists items, parse_list data = RDict items
  else parse_list data = data /\ forall items, data <> RDict items.
Proof.
  destruct data; cbn; try (split; [reflexivity | discriminate]).
  - destruct (List.length items =? 2)%nat;
      [eauto | split; [reflexivity | discriminate]].
  - destruct (List.length items =? 2)%nat;
      [eauto | split; [reflexivity | discriminate]].
  - eauto.
Qed.

(** X1 -- an input is rejected with the single model-type error at the
    root, echoing the input, exactly when it is neither a mapping nor a
    list or tuple of two elements: scalars, [None], and sequences of any
    other length. *)
Theorem entry_model_type_error_iff_shape (data : Raw) :
  entry_shape data = false
  <-> OrderBookEntry_model_validate data
      = ValidationError [mkLineError ModelType [] data].
Proof.
  unfold OrderBookEntry_model_validate, OrderBookEntry_validator.
  pose proof (parse_list_shape data) as Hs.
  destruct (entry_shape data); split; try discriminate; try reflexivity.
  - destruct Hs as [items ->].
    unfold model_fields_validator, validate_field.
    destruct (dict_get "price" items) as [p|];
      destruct (dict_get "quantity" items) as [q|];
      try destruct (decimal_validator_cases p) as [(d & -> & _)|(ty & -> & _)];
      try destruct (decimal_validator_cases q) as [(d' & -> & _)|(ty' & -> & _)];
      discriminate.
  - intros _. destruct Hs as [-> Hnd].
    destruct data; try reflexivity. now destruct (Hnd items).
Qed.

Lemma entry_model_type_error_iff_shape_witness :
  entry_shape (RInt 12345) = false
  /\ OrderBookEntry_model_validate (RInt 12345)
     = ValidationError [mkLineError ModelType [] (RInt 12345)].
Proof.
  split; [reflexivity|].
  exact (proj1 (entry_model_type_error_iff_shape (RInt 12345)) eq_refl).
Defined.

Lemma decimal_field_cases (name : string) (items : list (string * Raw)) :
  (exists d, validate_field decimal_validator name items = Ok d)
  \/ (exists e,
        validate_field decimal_validator name items = ValidationError [e]
        /\ loc e = [LKey name]
        /\ In (error_type e)
              [Missing; DecimalType; DecimalParsing; FiniteNumber]).
Proof.
  unfold validate_field.
  destruct (dict_get name items) as [value|].
  - destruct (decimal_validator_cases value)
      as [(d & -> & _)|(ty & -> & Hty)].
    + left; now exists d.
    + right; eexists; split; [reflexivity|]; split; [reflexivity|].
      cbn. destruct Hty as [-> | [-> | ->]]; auto.
  - right; eexists; split; [reflexivity|]; split; [reflexivity|].
    cbn; auto.
Qed.

(** X2 -- when a mapping or a pair is rejected, there are one or two
    errors, at most one per field and the one for [price] first; each is
    located at its field and is [missing] or one of the decimal errors
    (wrong type, not a number, not finite). *)
Theorem entry_errors_at_fields (data : Raw) (errs : list LineError) :
  entry_shape data = true ->
  OrderBookEntry_model_validate data = ValidationError errs ->
  exists price_errs quantity_errs,
    errs = (price_errs ++ quantity_errs)%list
    /\ (List.length price_errs <= 1)%nat
    /\ (List.length quantity_errs <= 1)%nat
    /\ (1 <= List.length errs)%nat
    /\ Forall (fun e => loc e = [LKey "price"]
                        /\ In (error_type e)
                              [Missing; DecimalType; DecimalParsing; FiniteNumber])
              price_errs
    /\ Forall (fun e => loc e = [LKey "quantity"]
                        /\ In (error_type e)
                              [Missing; DecimalType; DecimalParsing; FiniteNumber])
              quantity_errs.
Proof.
  unfold OrderBookEntry_model_validate, OrderBookEntry_validator.
  intros Hshape. pose proof (parse_list_shape data) as Hs.
  rewrite Hshape in Hs. destruct Hs as [items ->].
  unfold model_fields_validator.
  destruct (decimal_field_cases "price" items)
    as [(dp & ->)|(ep & -> & Hlp & Htp)];
    destruct (decimal_field_cases "quantity" items)
      as [(dq & ->)|(eq & -> & Hlq & Htq)].
  - discriminate.
  - intros [= <-]. exists [], [eq]. cbn.
    split; [reflexivity|]. split; [lia|]. split; [lia|]. split; [lia|].
    split; [constructor|]. constructor; [now split | constructor].
  - intros [= <-]. exists [ep], []. cbn.
    split; [reflexivity|]. split; [lia|]. split; [lia|]. split; [lia|].
    split; [|constructor]. constructor; [now split | constructor].
  - intros [= <-]. exists [ep], [eq]. cbn.
    split; [reflexivity|]. split; [lia|]. split; [lia|]. split; [lia|].
    split; (constructor; [now split | constructor]).
Qed.

Lemma entry_errors_at_fields_witness :
  exists price_errs quantity_errs,
    [mkLineError DecimalParsing [LKey "price"] (RStr "abc");
     mkLineError FiniteNumber [LKey "quantity"] (RStr "nan")]
    = (price_errs ++ quantity_errs)%list
    /\ (List.length price_errs <= 1)%nat
    /\ (List.length quantity_errs <= 1)%nat
    /\ (1 <= List.length
              [mkLineError DecimalParsing [LKey "price"] (RStr "abc");
               mkLineError FiniteNumber [LKey "quantity"] (RStr "nan")])%nat
    /\ Forall (fun e => loc e = [LKey "price"]
                        /\ In (error_type e)
                              [Missing; DecimalType; DecimalParsing; FiniteNumber])
              price_errs
    /\ Forall (fun e => loc e = [LKey "quantity"]
                        /\ In (error_type e)
                              [Missing; DecimalType; DecimalParsing; FiniteNumber])
              quantity_errs.
Proof.
  apply (entry_errors_at_fields (RList [RStr "abc"; RStr "nan"]));
    reflexivity.
Defined.

Lemma validate_items_forall {T : Type} (v : Raw -> ValResult T)
    (P : T -> bool) (items : list Raw) (index : nat) :
  (forall r x, v r = Ok x -> P x = true) ->
  forallb P (fst (validate_items v index items)) = true.
Proof.
  intros HP; revert index; induction items as [|r rs IH]; intros index;
    [reflexivity|].
  cbn [validate_items]. specialize (IH (S index)).
  destruct (validate_items v (S index) rs) as [o errs]; cbn [fst] in *.
  destruct (v r) as [x|] eqn:Hr; cbn [fst forallb]; [|exact IH].
  now rewrite (HP r x Hr), IH.
Qed.

Lemma list_validator_forall {T : Type} (v : Raw -> ValResult T)
    (P : T -> bool) (input : Raw) (out : list T) :
  (forall r x, v r = Ok x -> P x = true) ->
  list_validator v input = Ok out -> forallb P out = true.
Proof.
  intros HP; unfold list_validator.
  destruct input; try discriminate.
  all: pose proof (validate_items_forall v P items 0 HP) as H;
    destruct (validate_items v 0 items) as [o [|e es]]; try discriminate;
    now intros [= <-].
Qed.

Lemma entry_validator_finite (r : Raw) (e : OrderBookEntry) :
  OrderBookEntry_validator r = Ok e -> entry_finite e = true.
Proof.
  intros H; apply validated_entry_finite in H as [Hp Hq].
  unfold entry_finite; now rewrite Hp, Hq.
Qed.

(** What a book that validates was made of: the input is a mapping, it
    has a list or tuple under [bids] and under [asks], and the entries of
    the book are what the elements validate to, one for one and in
    order. *)
Lemma book_validator_ok_inv (data : Raw) (book : OrderBook) :
  OrderBook_validator data = Ok book ->
  exists items raw_bids raw_asks,
    data = RDict items
    /\ dict_get "bids" items = Some raw_bids
    /\ dict_get "asks" items = Some raw_asks
    /\ list_validator OrderBookEntry_validator raw_bids = Ok (bids book)
    /\ list_validator OrderBookEntry_validator raw_asks = Ok (asks book).
Proof.
  unfold OrderBook_validator, model_fields_validator, validate_field.
  destruct data; try discriminate.
  destruct (dict_get "bids" items) as [rb|] eqn:Hgb; cycle 1.
  { destruct (dict_get "asks" items) as [ra|]; [|discriminate].
    destruct (list_validator OrderBookEntry_validator ra); discriminate. }
  destruct (list_validator OrderBookEntry_validator rb) as [bs|] eqn:Hb;
    cycle 1.
  { destruct (dict_get "asks" items) as [ra|]; [|discriminate].
    destruct (list_validator OrderBookEntry_validator ra); discriminate. }
  destruct (dict_get "asks" items) as [ra|] eqn:Hga; [|discriminate].
  destruct (list_validator OrderBookEntry_validator ra) as [als|] eqn:Ha;
    [|discriminate].
  intros [= <-]. exists items, rb, ra. cbn [bids asks].
  repeat split; assumption.
Qed.

Lemma book_validator_finite (r : Raw) (b : OrderBook) :
  OrderBook_validator r = Ok b -> book_finite b = true.
Proof.
  intros H; apply book_validator_ok_inv in H
    as (items & rb & ra & _ & _ & _ & Hb & Ha).
  unfold book_finite.
  rewrite (list_validator_forall _ entry_finite _ _ entry_validator_finite Hb).
  now rewrite (list_validator_forall _ entry_finite _ _ entry_validator_finite Ha).
Qed.

(** X3 -- no NaN and no Infinity gets through: in every snapshot that
    validates, every price and every quantity of every book is a finite
    decimal. *)
Theorem snapshot_decimals_finite (data : Raw)
    (books : list (string * OrderBook)) :
  all_order_books_T_validate_python data = Ok books ->
  forallb (fun kb => book_finite (snd kb)) books = true.
Proof.
  unfold all_order_books_T_validate_python, all_order_books_T, dict_validator.
  destruct data; try discriminate.
  assert (H : forallb (fun kb => book_finite (snd kb))
                (fst (validate_dict_items OrderBook_validator items)) = true).
  { rewrite validate_dict_items_output.
    induction items as [|[k r] rest IH]; [reflexivity|].
    cbn [flat_map fst snd].
    destruct (OrderBook_validator r) as [b|] eqn:Hb; cbn [app forallb snd];
      [|exact IH].
    now rewrite (book_validator_finite r b Hb), IH. }
  destruct (validate_dict_items OrderBook_validator items) as [o [|e es]];
    try discriminate.
  now intros [= <-].
Qed.

Lemma snapshot_decimals_finite_witness :
  forallb (fun kb => book_finite (snd kb))
    [("BTCIRT",
      mkOrderBook
        [mkOrderBookEntry (Finite false 1470001120 0) (Finite false 126571 (-6))]
        [])] = true.
Proof.
  apply (snapshot_decimals_finite
           (RDict [("BTCIRT",
                    RDict [("asks", RList []);
                           ("bids", RList [RList [RStr "1470001120";
                                                  RStr "0.126571"]])])])).
  reflexivity.
Defined.

(** X4 -- a raw book that lacks [bids] or [asks] is rejected, and the
    errors hold a [missing] error located at the absent field, echoing
    the mapping. *)
Theorem book_missing_field (items : list (string * Raw)) (name : string) :
  In name ["bids"; "asks"] ->
  dict_get name items = None ->
  exists errs,
    OrderBook_model_validate (RDict items) = ValidationError errs
    /\ In (mkLineError Missing [LKey name] (RDict items)) errs.
Proof.
  unfold OrderBook_model_validate, OrderBook_validator,
    model_fields_validator, validate_field.
  intros [<-|[<-|[]]] ->.
  - destruct (dict_get "asks" items) as [ra|];
      [destruct (list_validator OrderBookEntry_validator ra)|];
      eexists; (split; [reflexivity | now left]).
  - destruct (dict_get "bids" items) as [rb|];
      [destruct (list_validator OrderBookEntry_validator rb)|];
      eexists; (split; [reflexivity|]);
      cbn [errors_of]; apply in_or_app; right; now left.
Qed.

Lemma book_missing_field_witness :
  exists errs,
    OrderBook_model_validate (RDict [("bids", RList [])])
    = ValidationError errs
    /\ In (mkLineError Missing [LKey "asks"] (RDict [("bids", RList [])])) errs.
Proof.
  apply (book_missing_field [("bids", RList [])] "asks").
  - right; left; reflexivity.
  - reflexivity.
Defined.

(** X5 -- what a book that validates was made of.  The input is a
    mapping with a list or tuple under [bids] and one under [asks], and
    the entries of the book are what the raw elements validate to, one
    for one and in order; so an element that does not validate is never
    dropped without notice. *)
Theorem book_ok_only_from_valid_elements (data : Raw) (book : OrderBook) :
  OrderBook_model_validate data = Ok book ->
  exists items raw_bids raw_asks bid_items ask_items,
    data = RDict items
    /\ dict_get "bids" items = Some raw_bids
    /\ dict_get "asks" items = Some raw_asks
    /\ sequence_items raw_bids = Some bid_items
    /\ sequence_items raw_asks = Some ask_items
    /\ Forall2 (fun r e => OrderBookEntry_model_validate r = Ok e)
               bid_items (bids book)
    /\ Forall2 (fun r e => OrderBookEntry_model_validate r = Ok e)
               ask_items (asks book).
Proof.
  intros H; apply book_validator_ok_inv in H
    as (items & rb & ra & -> & Hgb & Hga & Hb & Ha).
  assert (Hinv : forall raw out,
             list_validator OrderBookEntry_validator raw = Ok out ->
             exists its, sequence_items raw = Some its
                         /\ Forall2 (fun r e => OrderBookEntry_validator r = Ok e)
                                    its out).
  { intros raw out; unfold list_validator.
    destruct raw; try discriminate.
    all: destruct (validate_items OrderBookEntry_validator 0 items0)
           as [o [|e es]] eqn:Hv; try discriminate;
         intros [= <-]; exists items0; split; [reflexivity|];
         apply (validate_items_ok_inv OrderBookEntry_validator items0 o 0);
         [intros r errs _; apply OrderBookEntry_validator_never_silent
         | exact Hv]. }
  destruct (Hinv _ _ Hb) as (bi & Hsb & Fb).
  destruct (Hinv _ _ Ha) as (ai & Hsa & Fa).
  exists items, rb, ra, bi, ai. repeat split; assumption.
Qed.

Lemma book_ok_only_from_valid_elements_witness :
  exists items raw_bids raw_asks bid_items ask_items,
    RDict [("asks", RList []); ("bids", RTuple [RList [RStr "1"; RStr "2"]])]
    = RDict items
    /\ dict_get "bids" items = Some raw_bids
    /\ dict_get "asks" items = Some raw_asks
    /\ sequence_items raw_bids = Some bid_items
    /\ sequence_items raw_asks = Some ask_items
    /\ Forall2 (fun r e => OrderBookEntry_model_validate r = Ok e)
               bid_items
               (bids (mkOrderBook
                        [mkOrderBookEntry (Finite false 1 0) (Finite false 2 0)]
                        []))
    /\ Forall2 (fun r e => OrderBookEntry_model_validate r = Ok e)
               ask_items
               (asks (mkOrderBook
                        [mkOrderBookEntry (Finite false 1 0) (Finite false 2 0)]
                        [])).
Proof.
  apply (book_ok_only_from_valid_elements
           (RDict [("asks", RList []);
                   ("bids", RTuple [RList [RStr "1"; RStr "2"]])])).
  reflexivity.
Defined.

(** X6 -- what [model_dump] returns validates to the entry it was
    dumped from: an entry that came out of validation goes through
    [model_dump] and [model_validate] unchanged. *)
Theorem entry_model_dump_round_trip (data : Raw) (e : OrderBookEntry) :
  OrderBookEntry_model_validate data = Ok e ->
  OrderBookEntry_model_validate (OrderBookEntry_model_dump e) = Ok e.
Proof.
  unfold OrderBookEntry_model_validate; intros H.
  destruct (validated_entry_finite _ _ H) as [Fp Fq].
  destruct (validated_entry_in_range _ _ H) as [Rp Rq].
  destruct e as [p q]; cbn [price quantity] in *.
  unfold OrderBookEntry_model_dump, OrderBookEntry_validator,
    model_fields_validator, validate_field, decimal_validator,
    validate_decimal; cbn [price quantity parse_list].
  cbn [dict_get String.eqb Ascii.eqb Bool.eqb].
  now rewrite Rp, Rq, Fp, Fq.
Qed.

Lemma entry_model_dump_round_trip_witness :
  OrderBookEntry_model_validate
    (OrderBookEntry_model_dump
       (mkOrderBookEntry (Finite false 800000 (-1)) (Finite false 4 (-1))))
  = Ok (mkOrderBookEntry (Finite false 800000 (-1)) (Finite false 4 (-1))).
Proof.
  apply (entry_model_dump_round_trip (RList [RStr "80000.0"; RStr "0.4"])).
  reflexivity.
Defined.

Lemma validate_items_error_at {T : Type} (v : Raw -> ValResult T)
    (items : list Raw) (index i : nat) (r : Raw)
    (errs : list LineError) (e : LineError) :
  nth_error items i = Some r -> v r = ValidationError errs -> In e errs ->
  In (with_outer_location (LIndex (index + i)) e)
     (snd (validate_items v index items)).
Proof.
  revert index i; induction items as [|x xs IH]; intros index i Hn Hr He.
  - destruct i; discriminate.
  - cbn [validate_items].
    destruct i as [|i]; cbn [nth_error] in Hn.
    + injection Hn as ->. rewrite Hr, Nat.add_0_r.
      destruct (validate_items v (S index) xs) as [o es]; cbn [snd].
      apply in_or_app; left. now apply in_map.
    + specialize (IH (S index) i Hn Hr He).
      replace (S index + i)%nat with (index + S i)%nat in IH by lia.
      destruct (validate_items v (S index) xs) as [o es]; cbn [snd] in *.
      destruct (v x); cbn [snd]; [exact IH|].
      apply in_or_app; now right.
Qed.

Lemma list_validator_error_at {T : Type} (v : Raw -> ValResult T)
    (items : list Raw) (i : nat) (r : Raw)
    (errs : list LineError) (e : LineError) :
  nth_error items i = Some r -> v r = ValidationError errs -> In e errs ->
  exists all,
    list_validator v (RList items) = ValidationError all
    /\ In (with_outer_location (LIndex i) e) all.
Proof.
  intros Hn Hr He.
  pose proof (validate_items_error_at v items 0 i r errs e Hn Hr He) as H.
  unfold list_validator.
  destruct (validate_items v 0 items) as [o [|e0 es]]; cbn [snd] in H;
    [destruct H|].
  eexists; split; [reflexivity | exact H].
Qed.

Lemma model_field_error_at {A M : Type} (v : Raw -> ValResult A)
    (build : A -> A -> M) (name : string) (items : list (string * Raw))
    (value : Raw) (errs : list LineError) (e : LineError) (name1 name2 : string) :
  In name [name1; name2] ->
  dict_get name items = Some value ->
  v value = ValidationError errs -> In e errs ->
  exists all,
    model_fields_validator name1 v name2 v build (RDict items)
    = ValidationError all
    /\ In (with_outer_location (LKey name) e) all.
Proof.
  intros Hname Hg Hv He.
  assert (Hf : validate_field v name items
               = ValidationError (map (with_outer_location (LKey name)) errs)).
  { unfold validate_field. now rewrite Hg, Hv. }
  assert (Hin : In (with_outer_location (LKey name) e)
                   (map (with_outer_location (LKey name)) errs))
    by now apply in_map.
  unfold model_fields_validator.
  destruct Hname as [<-|[<-|[]]].
  - rewrite Hf. eexists; split; [reflexivity|].
    cbn [errors_of]; apply in_or_app; now left.
  - destruct (validate_field v name1 items) as [a|e1] eqn:E1; rewrite Hf;
      (eexists; split; [reflexivity|]);
      cbn [errors_of]; apply in_or_app; now right.
Qed.

(** X7 -- the path to an entry that fails.  When the element at index
    [i] of the list under [bids] or [asks] of the book under [key] does
    not validate, the snapshot is rejected, and every error of that
    element is reported with the key, the field and the index put before
    its own location. *)
Theorem snapshot_error_path (items book_items : list (string * Raw))
    (key field : string) (raw : list Raw) (i : nat) (r : Raw)
    (errs : list LineError) (e : LineError) :
  In (key, RDict book_items) items ->
  In field ["bids"; "asks"] ->
  dict_get field book_items = Some (RList raw) ->
  nth_error raw i = Some r ->
  OrderBookEntry_model_validate r = ValidationError errs ->
  In e errs ->
  exists all,
    all_order_books_T_validate_python (RDict items) = ValidationError all
    /\ In (mkLineError (error_type e)
             (LKey key :: LKey field :: LIndex i :: loc e) (input_value e))
          all.
Proof.
  intros Hin Hfield Hg Hn Hr He.
  destruct (list_validator_error_at OrderBookEntry_validator raw i r errs e
              Hn Hr He) as (l_errs & Hl & Hle).
  destruct (model_field_error_at (list_validator OrderBookEntry_validator)
              mkOrderBook field book_items (RList raw) l_errs _ "bids" "asks"
              Hfield Hg Hl Hle) as (b_errs & Hb & Hbe).
  fold (OrderBook_validator (RDict book_items)) in Hb.
  unfold all_order_books_T_validate_python, all_order_books_T, dict_validator.
  pose proof (validate_dict_items_errors OrderBook_validator items) as Herrs.
  assert (Hall : In (with_outer_location (LKey key)
                       (with_outer_location (LKey field)
                          (with_outer_location (LIndex i) e)))
                    (snd (validate_dict_items OrderBook_validator items))).
  { rewrite Herrs. apply in_flat_map.
    exists (key, RDict book_items); split; [exact Hin|].
    cbn [fst snd]. rewrite Hb; cbn [errors_of]. now apply in_map. }
  destruct (validate_dict_items OrderBook_validator items) as [o [|e0 es]];
    cbn [snd] in Hall; [destruct Hall|].
  eexists; split; [reflexivity | exact Hall].
Qed.

Lemma snapshot_error_path_witness :
  exists all,
    all_order_books_T_validate_python
      (RDict [("BTCIRT",
               RDict [("asks", RList []);
                      ("bids", RList [RList [RStr "1"; RStr "2"];
                                      RList [RStr "abc"; RStr "2"]])])])
    = ValidationError all
    /\ In (mkLineError (error_type (mkLineError DecimalParsing [LKey "price"]
                                                (RStr "abc")))
             (LKey "BTCIRT" :: LKey "bids" :: LIndex 1
              :: loc (mkLineError DecimalParsing [LKey "price"] (RStr "abc")))
             (input_value (mkLineError DecimalParsing [LKey "price"]
                                       (RStr "abc"))))
          all.
Proof.
  apply (snapshot_error_path
           [("BTCIRT",
             RDict [("asks", RList []);
                    ("bids", RList [RList [RStr "1"; RStr "2"];
                                    RList [RStr "abc"; RStr "2"]])])]
           [("asks", RList []);
            ("bids", RList [RList [RStr "1"; RStr "2"];
                            RList [RStr "abc"; RStr "2"]])]
           "BTCIRT" "bids"
           [RList [RStr "1"; RStr "2"]; RList [RStr "abc"; RStr "2"]]
           1 (RList [RStr "abc"; RStr "2"])
           [mkLineError DecimalParsing [LKey "price"] (RStr "abc")]).
  - left; reflexivity.
  - left; reflexivity.
  - reflexivity.
  - reflexivity.
  - reflexivity.
  - left; reflexivity.
Defined.
